(** * Diaper Defense: the simulation core, embedded in Rocq

    Shallow embedding of the scoring system ([ScoreSystem]), the miss
    handling of the game engine ([DiaperDefenseEngine.checkMissedPoops]),
    the game-state machine ([GameStateManager]), the adaptive quality
    controller ([PerformanceManager]), the projectile type draw
    ([Poop.createRandomType]), the collision queries ([CollisionSystem]),
    the object pool ([ObjectPool]), the entity teardown ([Entity.destroy])
    and the type guard of the [Poop] constructor and [Poop.reset].

    JavaScript numbers are modelled by exact rationals [Q] where the code
    computes with fractions, and by [N] or [Z] where they only count.
    Registered callbacks are modelled by the events they receive, in the
    order the code calls them. *)

From Stdlib Require Import ZArith NArith QArith Qminmax Qabs Qround Qpower Lqa Lia Bool String List.
From stdpp Require Import base list gmap strings pretty.

(* ------------------------------------------------------------------ *)
(** ** Projectile types ([src/client/entities/Poop.ts]) *)

(** [enum PoopType { REGULAR = 'regular', FANCY = 'fancy', BOOB = 'boob' }] *)
Inductive PoopType := REGULAR | FANCY | BOOB.

Definition PoopType_eqb (a b : PoopType) : bool :=
  match a, b with
  | REGULAR, REGULAR | FANCY, FANCY | BOOB, BOOB => true
  | _, _ => false
  end.

(** The string value of each enum member. *)
Definition PoopType_value (t : PoopType) : string :=
  match t with
  | REGULAR => "regular"
  | FANCY => "fancy"
  | BOOB => "boob"
  end.

(** Member access [PoopType.NAME] on the enum object: [None] is
    [undefined], the value of a name the enum does not declare. *)
Definition PoopType_member (name : string) : option PoopType :=
  if String.eqb name "REGULAR" then Some REGULAR
  else if String.eqb name "FANCY" then Some FANCY
  else if String.eqb name "BOOB" then Some BOOB
  else None.

(** [t === PoopType.NAME] for a projectile's type [t]: a string is never
    strictly equal to [undefined]. *)
Definition is_member (t : PoopType) (name : string) : bool :=
  match PoopType_member name with
  | Some u => PoopType_eqb t u
  | None => false
  end.

(* ------------------------------------------------------------------ *)
(** ** ScoreSystem ([src/client/systems/ScoreSystem.ts]) *)

Record ScoreSystem := mkScoreSystem {
  score : N;
  misses : N;
  consecutiveMisses : N;
  maxMisses : N
}.

(** What the registered callbacks receive: [scoreUpdateCallbacks] get the
    score, [missUpdateCallbacks] the two miss counters, and
    [gameOverCallbacks] are called without argument. *)
Inductive ScoreEvent :=
  | ScoreUpdate (s : N)
  | MissUpdate (total consecutive : N)
  | GameOver.

(** Field initialisers of the class: [maxMisses = 2]. *)
Definition ScoreSystem_init : ScoreSystem := mkScoreSystem 0 0 0 2.

(** [triggerGameOver]: every game-over callback is called. *)
Definition triggerGameOver : list ScoreEvent := [GameOver].

(** [addScore(poopType)]: the points awarded, the new state and the
    callback events, in order. *)
Definition addScore (t : PoopType) (s : ScoreSystem)
  : N * ScoreSystem * list ScoreEvent :=
  let points :=
    match t with
    | REGULAR => 10%N
    | FANCY => 50%N
    | BOOB => 0%N
    end in
  match t with
  | BOOB => (0%N, s, triggerGameOver)
  | _ =>
      let s' := mkScoreSystem (score s + points) (misses s) 0 (maxMisses s) in
      (points, s', [ScoreUpdate (score s')])
  end.

(** [addMiss()]: [true] when the game should end. *)
Definition addMiss (s : ScoreSystem) : bool * ScoreSystem * list ScoreEvent :=
  let s' := mkScoreSystem (score s) (misses s + 1) (consecutiveMisses s + 1)
              (maxMisses s) in
  let evs := [MissUpdate (misses s') (consecutiveMisses s')] in
  if (maxMisses s' <=? consecutiveMisses s')%N
  then (true, s', evs ++ triggerGameOver)
  else (false, s', evs).

(** [reset()] *)
Definition ScoreSystem_reset (s : ScoreSystem) : ScoreSystem * list ScoreEvent :=
  let s' := mkScoreSystem 0 0 0 (maxMisses s) in
  (s', [ScoreUpdate 0; MissUpdate 0 0]).

(** [setMaxMisses(n)]: [Math.max(1, n)]. *)
Definition setMaxMisses (n : N) (s : ScoreSystem) : ScoreSystem :=
  mkScoreSystem (score s) (misses s) (consecutiveMisses s) (N.max 1 n).

(** The public methods the class declares; the engine's miss handler calls
    a method of this list by name. *)
Definition ScoreSystem_methods : list string :=
  ["addScore"; "addMiss"; "shouldGameOverOnCatch"; "shouldGameOverOnMiss";
   "getScore"; "getMisses"; "getConsecutiveMisses"; "getMaxMisses"; "reset";
   "setMaxMisses"; "onGameOver"; "onScoreUpdate"; "onMissUpdate";
   "clearCallbacks"; "getStats"; "isHighScore"; "getScoreMultiplier"].

(* ------------------------------------------------------------------ *)
(** ** Miss handling of the engine ([DiaperDefenseEngine.checkMissedPoops]) *)

(** Result of handling one projectile that fell off screen: the new score
    state, the score callbacks fired, and whether [endGame()] is called;
    or the [TypeError] raised by calling a method the score system lacks. *)
Inductive MissOutcome :=
  | MissHandled (s : ScoreSystem) (evs : list ScoreEvent) (endGame : bool)
  | MissTypeError (method : string).

(** The score-relevant part of the loop body of [checkMissedPoops] for one
    active, off-screen projectile of type [t]: only [PoopType.REGULAR] and
    [PoopType.FANCY] misses are counted; for [PoopType.BOMB] the engine
    calls [scoreSystem.resetConsecutiveMisses()]. *)
Definition checkMissedPoop (t : PoopType) (s : ScoreSystem) : MissOutcome :=
  if is_member t "REGULAR" || is_member t "FANCY" then
    let '(gameOver, s', evs) := addMiss s in MissHandled s' evs gameOver
  else if is_member t "BOMB" then
    if existsb (String.eqb "resetConsecutiveMisses") ScoreSystem_methods
    then MissHandled s [] false (* not reached: no such method *)
    else MissTypeError "resetConsecutiveMisses"
  else MissHandled s [] false.

(** Modelled from the spec: [ScoreSystem.resetConsecutiveMisses()], which
    the engine calls but the score system of the repository does not
    declare: it "zeroes consecutiveMisses without affecting score or
    totalMisses". *)
Definition resetConsecutiveMisses_spec (s : ScoreSystem) : ScoreSystem :=
  mkScoreSystem (score s) (misses s) 0 (maxMisses s).

(* ------------------------------------------------------------------ *)
(** ** GameStateManager ([src/client/systems/GameStateManager.ts]) *)

Inductive GameState := START | PLAY | GAME_OVER.

Definition GameState_eqb (a b : GameState) : bool :=
  match a, b with
  | START, START | PLAY, PLAY | GAME_OVER, GAME_OVER => true
  | _, _ => false
  end.

Record GameStateManager := mkGSM {
  currentState : GameState;
  previousState : GameState;
  isTransitioning : bool;
  gameTime : Z;
  startTime : Z
}.

(** Field initialisers of the class. *)
Definition GameStateManager_init : GameStateManager :=
  mkGSM START START false 0 0.

(** Which callback list is run, in order: the exit callbacks of a state,
    the enter callbacks of a state, the change callbacks of a state. *)
Inductive StateCallbacks :=
  | RunExit (st : GameState)
  | RunEnter (st : GameState)
  | RunChange (st : GameState).

(** [handleStateTransition(newState)], with [now] the value of
    [Date.now()]. *)
Definition handleStateTransition (newState : GameState) (now : Z)
    (m : GameStateManager) : GameStateManager :=
  match newState with
  | START => mkGSM (currentState m) (previousState m) (isTransitioning m) 0 0
  | PLAY => mkGSM (currentState m) (previousState m) (isTransitioning m) 0 now
  | GAME_OVER =>
      if (0 <? startTime m)%Z
      then mkGSM (currentState m) (previousState m) (isTransitioning m)
             (now - startTime m) (startTime m)
      else m
  end.

(** [transitionTo(newState, force = false)]. *)
Definition transitionTo (newState : GameState) (force : bool) (now : Z)
    (m : GameStateManager) : GameStateManager * list StateCallbacks :=
  if GameState_eqb (currentState m) newState && negb force then (m, [])
  else if isTransitioning m then (m, [])
  else
    let m1 := mkGSM newState (currentState m) true (gameTime m) (startTime m) in
    let m2 := handleStateTransition newState now m1 in
    (mkGSM (currentState m2) (previousState m2) false (gameTime m2)
       (startTime m2),
     [RunExit (currentState m); RunEnter newState; RunChange newState]).

(** [isValidTransition(fromState, toState)]: the transition table. *)
Definition validTransitions (st : GameState) : list GameState :=
  match st with
  | START => [PLAY]
  | PLAY => [GAME_OVER; START]
  | GAME_OVER => [START; PLAY]
  end.

Definition isValidTransition (fromState toState : GameState) : bool :=
  existsb (GameState_eqb toState) (validTransitions fromState).

(* ------------------------------------------------------------------ *)
(** ** PerformanceManager ([src/client/systems/PerformanceManager.ts]) *)

Inductive DeviceCapability := LOW | MEDIUM | HIGH.

Open Scope Q_scope.

Record QualitySettings := mkQuality {
  pixelRatio : Q;
  particleCount : Q;
  shadowQuality : bool;
  antialiasing : bool;
  textureQuality : Q;
  maxEntities : Q;
  targetFPS : Q
}.

(** JavaScript's [a < b] on numbers. *)
Definition Qltb (a b : Q) : bool := negb (Qle_bool b a).

(** [getInitialQualitySettings()], for the detected capability and the
    device's [window.devicePixelRatio]. *)
Definition getInitialQualitySettings (cap : DeviceCapability) (dpr : Q)
  : QualitySettings :=
  match cap with
  | LOW => mkQuality (Qmin dpr 1) 10 false false (1#2) 20 30
  | MEDIUM => mkQuality (Qmin dpr (3#2)) 20 false true 1 40 45
  | HIGH => mkQuality dpr 30 true true 1 60 60
  end.

Definition with_pixelRatio (q : QualitySettings) (v : Q) : QualitySettings :=
  mkQuality v (particleCount q) (shadowQuality q) (antialiasing q)
    (textureQuality q) (maxEntities q) (targetFPS q).
Definition with_particleCount (q : QualitySettings) (v : Q) : QualitySettings :=
  mkQuality (pixelRatio q) v (shadowQuality q) (antialiasing q)
    (textureQuality q) (maxEntities q) (targetFPS q).
Definition with_antialiasing (q : QualitySettings) (v : bool) : QualitySettings :=
  mkQuality (pixelRatio q) (particleCount q) (shadowQuality q) v
    (textureQuality q) (maxEntities q) (targetFPS q).
Definition with_textureQuality (q : QualitySettings) (v : Q) : QualitySettings :=
  mkQuality (pixelRatio q) (particleCount q) (shadowQuality q) (antialiasing q)
    v (maxEntities q) (targetFPS q).
Definition with_maxEntities (q : QualitySettings) (v : Q) : QualitySettings :=
  mkQuality (pixelRatio q) (particleCount q) (shadowQuality q) (antialiasing q)
    (textureQuality q) v (targetFPS q).

(** [reduceQuality()]: the new settings and whether they changed (the
    quality-change callback is notified exactly when they did). *)
Definition reduceQuality (q : QualitySettings) : QualitySettings * bool :=
  if Qltb 5 (particleCount q) then
    (with_particleCount q (Qmax 5 (particleCount q - 5)), true)
  else if Qltb (1#2) (pixelRatio q) then
    (with_pixelRatio q (Qmax (1#2) (pixelRatio q - (1#4))), true)
  else if antialiasing q then
    (with_antialiasing q false, true)
  else if Qltb (1#2) (textureQuality q) then
    (with_textureQuality q (1#2), true)
  else if Qltb 10 (maxEntities q) then
    (with_maxEntities q (Qmax 10 (maxEntities q - 10)), true)
  else (q, false).

(** [increaseQuality()], against the initial settings [init]. *)
Definition increaseQuality (init q : QualitySettings) : QualitySettings * bool :=
  if Qltb (particleCount q) (particleCount init) then
    (with_particleCount q (Qmin (particleCount init) (particleCount q + 5)), true)
  else if Qltb (pixelRatio q) (pixelRatio init) then
    (with_pixelRatio q (Qmin (pixelRatio init) (pixelRatio q + (1#4))), true)
  else if negb (antialiasing q) && antialiasing init then
    (with_antialiasing q true, true)
  else if Qltb (textureQuality q) (textureQuality init) then
    (with_textureQuality q (textureQuality init), true)
  else if Qltb (maxEntities q) (maxEntities init) then
    (with_maxEntities q (Qmin (maxEntities init) (maxEntities q + 10)), true)
  else (q, false).

(** [canIncreaseQuality()] *)
Definition canIncreaseQuality (init q : QualitySettings) : bool :=
  Qltb (particleCount q) (particleCount init) ||
  Qltb (pixelRatio q) (pixelRatio init) ||
  (negb (antialiasing q) && antialiasing init) ||
  Qltb (textureQuality q) (textureQuality init) ||
  Qltb (maxEntities q) (maxEntities init).

(** The mutable part of the manager that the control loop reads. *)
Record PerfState := mkPerf {
  qualitySettings : QualitySettings;
  frameTimeHistory : list Q;
  lastQualityAdjustment : Q
}.

Definition qualityAdjustmentCooldown : Q := 5000.

Definition Qsum (l : list Q) : Q := fold_left Qplus l 0.

(** [avgFrameTime = sum / length] and [avgFPS = 1000 / avgFrameTime]. *)
Definition averageFPS (h : list Q) : Q :=
  1000 / (Qsum h / inject_Z (Z.of_nat (length h))).

(** [checkPerformanceAndAdjust()], with [now] the value of
    [performance.now()] and [init] the initial settings of the tier. *)
Definition checkPerformanceAndAdjust (init : QualitySettings) (now : Q)
    (p : PerfState) : PerfState :=
  if Qltb (now - lastQualityAdjustment p) qualityAdjustmentCooldown then p
  else if Nat.ltb (length (frameTimeHistory p)) 30%nat then p
  else
    let avgFPS := averageFPS (frameTimeHistory p) in
    let target := targetFPS (qualitySettings p) in
    if Qltb avgFPS (target * (8#10)) then
      mkPerf (fst (reduceQuality (qualitySettings p))) (frameTimeHistory p) now
    else if Qltb (target * (12#10)) avgFPS &&
            canIncreaseQuality init (qualitySettings p) then
      mkPerf (fst (increaseQuality init (qualitySettings p)))
        (frameTimeHistory p) now
    else p.

(** The quality dimensions the controller adjusts, in the order in which
    both [reduceQuality] and [increaseQuality] try them. *)
Inductive Dim := DParticles | DPixelRatio | DAntialiasing | DTexture | DEntities.

Definition all_dims : list Dim :=
  [DParticles; DPixelRatio; DAntialiasing; DTexture; DEntities].

(** Whether two settings agree on a dimension. *)
Definition same_on (d : Dim) (q q' : QualitySettings) : bool :=
  match d with
  | DParticles => Qeq_bool (particleCount q) (particleCount q')
  | DPixelRatio => Qeq_bool (pixelRatio q) (pixelRatio q')
  | DAntialiasing => Bool.eqb (antialiasing q) (antialiasing q')
  | DTexture => Qeq_bool (textureQuality q) (textureQuality q')
  | DEntities => Qeq_bool (maxEntities q) (maxEntities q')
  end.

(** The dimensions on which two settings differ. *)
Definition changed_dims (q q' : QualitySettings) : list Dim :=
  List.filter (fun d => negb (same_on d q q')) all_dims.

(** A dimension is above its floor (it can be downgraded). *)
Definition reducible (q : QualitySettings) (d : Dim) : bool :=
  match d with
  | DParticles => Qltb 5 (particleCount q)
  | DPixelRatio => Qltb (1#2) (pixelRatio q)
  | DAntialiasing => antialiasing q
  | DTexture => Qltb (1#2) (textureQuality q)
  | DEntities => Qltb 10 (maxEntities q)
  end.

(** A dimension is below the tier's initial setting (it can be upgraded). *)
Definition increasable (init q : QualitySettings) (d : Dim) : bool :=
  match d with
  | DParticles => Qltb (particleCount q) (particleCount init)
  | DPixelRatio => Qltb (pixelRatio q) (pixelRatio init)
  | DAntialiasing => negb (antialiasing q) && antialiasing init
  | DTexture => Qltb (textureQuality q) (textureQuality init)
  | DEntities => Qltb (maxEntities q) (maxEntities init)
  end.

Definition first_dim (P : Dim -> bool) : list Dim :=
  match List.find P all_dims with Some d => [d] | None => [] end.

Close Scope Q_scope.

(** Concrete inputs of the controller: the desktop tier at a device pixel
    ratio of 1, and a history of 30 frames of the given duration. *)
Definition desktop_init : QualitySettings := getInitialQualitySettings HIGH 1.

Definition perf_with (q : QualitySettings) (frame : Q) : PerfState :=
  mkPerf q (repeat frame 30) 0.

(* ------------------------------------------------------------------ *)
(** ** Type draw ([Poop.typeConfigs], [Poop.createRandomType]) *)

Open Scope Q_scope.

Record PoopTypeConfig := mkPoopTypeConfig {
  points : Z;
  color : Z;
  probability : Q
}.

(** [Poop.typeConfigs] *)
Definition typeConfigs (t : PoopType) : PoopTypeConfig :=
  match t with
  | REGULAR => mkPoopTypeConfig 10 9127187 (6#10)    (* 0x8B4513 *)
  | FANCY => mkPoopTypeConfig 50 16766720 (25#100)   (* 0xFFD700 *)
  | BOOB => mkPoopTypeConfig (-1) 16738740 (15#100)  (* 0xFF69B4 *)
  end.

(** [Poop.createRandomType(score)], with [random] the value drawn by
    [Math.random()]; [Math.floor(score / 100)] is [Z.div] (it rounds
    towards minus infinity). *)
Definition createRandomType (score : Z) (random : Q) : PoopType :=
  let fancyBonus := inject_Z (score / 100) * (5#100) in
  let adjustedFancyProb :=
    Qmin (4#10) (probability (typeConfigs FANCY) + fancyBonus) in
  let boobProb := probability (typeConfigs BOOB) in
  if Qltb random boobProb then BOOB
  else if Qltb random (boobProb + adjustedFancyProb) then FANCY
  else REGULAR.

(** The selection rule as the spec words it, for a lethal probability and
    a base high-value probability. *)
Definition highValueProb_spec (base : Q) (S : Z) : Q :=
  Qmin (4#10) (base + inject_Z (S / 100) * (5#100)).

Definition selectType_spec (lethalProb base : Q) (S : Z) (r : Q) : PoopType :=
  if Qltb r lethalProb then BOOB
  else if Qltb r (lethalProb + highValueProb_spec base S) then FANCY
  else REGULAR.

(* ------------------------------------------------------------------ *)
(** ** Collision queries ([src/client/systems/CollisionSystem.ts]) *)

(** What the collision test reads of an entity. *)
Record Body := mkBody {
  posX : Q;
  posY : Q;
  bodyActive : bool
}.

(** [Diaper.getWidth()], [Diaper.getHeight()], [Poop.getWidth()],
    [Poop.getHeight()]. *)
Definition diaperWidth : Q := 80.
Definition diaperHeight : Q := 40.
Definition poopWidth : Q := 30.
Definition poopHeight : Q := 30.

(** [checkDiaperPoopCollision(diaper, poop)] *)
Definition checkDiaperPoopCollision (diaper poop : Body) : bool :=
  if negb (bodyActive diaper) || negb (bodyActive poop) then false
  else
    let deltaX := Qabs (posX diaper - posX poop) in
    let deltaY := Qabs (posY diaper - posY poop) in
    let minDistanceX := diaperWidth / 2 + poopWidth / 2 in
    let minDistanceY := diaperHeight / 2 + poopHeight / 2 in
    Qltb deltaX minDistanceX && Qltb deltaY minDistanceY.

(** [checkDiaperPoopCollisions(diaper, poops)]: the first colliding
    projectile of the array, or [null]. *)
Fixpoint checkDiaperPoopCollisions (diaper : Body) (poops : list Body)
  : option Body :=
  match poops with
  | [] => None
  | poop :: rest =>
      if checkDiaperPoopCollision diaper poop then Some poop
      else checkDiaperPoopCollisions diaper rest
  end.

Close Scope Q_scope.

(* ------------------------------------------------------------------ *)
(** ** Entity teardown ([Entity.destroy], in
    [.kiro/specs/diaper-defense/design.md]) *)

(** The mesh's material: one material or an array of them. *)
Inductive MeshMaterial :=
  | SingleMaterial
  | MaterialArray (n : nat).

Record EntityState := mkEntity {
  entActive : bool;
  meshInScene : bool;
  material : MeshMaterial
}.

(** The calls [destroy] makes on three.js objects: [scene.remove(mesh)]
    detaches the mesh only when it is a child of the scene; every
    [dispose()] call dispatches a [dispose] event that frees the GPU
    resources. *)
Inductive ResourceCall :=
  | DetachMesh
  | DisposeGeometry
  | DisposeMaterial.

(** [destroy()]: the mesh, the scene and the geometry are always set. *)
Definition destroy (e : EntityState) : EntityState * list ResourceCall :=
  let detach := if meshInScene e then [DetachMesh] else [] in
  let disposeMaterials :=
    match material e with
    | SingleMaterial => [DisposeMaterial]
    | MaterialArray n => repeat DisposeMaterial n
    end in
  (mkEntity false false (material e),
   detach ++ [DisposeGeometry] ++ disposeMaterials).

(** [destroy()] called twice in a row. *)
Definition destroy_twice (e : EntityState) : EntityState * list ResourceCall :=
  let '(e1, c1) := destroy e in
  let '(e2, c2) := destroy e1 in
  (e2, c1 ++ c2).

Definition ResourceCall_eqb (a b : ResourceCall) : bool :=
  match a, b with
  | DetachMesh, DetachMesh | DisposeGeometry, DisposeGeometry
  | DisposeMaterial, DisposeMaterial => true
  | _, _ => false
  end.

(** How many times a call occurs in a trace. *)
Fixpoint count_calls (c : ResourceCall) (l : list ResourceCall) : nat :=
  match l with
  | [] => 0
  | c' :: l' => (if ResourceCall_eqb c c' then 1 else 0) + count_calls c l'
  end.

(* ------------------------------------------------------------------ *)
(** ** Object pool ([src/client/systems/ObjectPool.ts]) *)

(** Pooled objects live in a heap; the pool array holds references
    (indices into the heap), so an object returned by [get] is the very
    object the pool keeps. *)
Record ObjectPool (T : Type) := mkObjectPool {
  heap : list T;
  pool : list nat;
  maxSize : nat
}.
Arguments mkObjectPool {T} _ _ _.
Arguments heap {T} _.
Arguments pool {T} _.
Arguments maxSize {T} _.

Section ObjectPoolOps.
(** [T extends Poolable]: the [isActive] flag, [reset(...args)],
    [destroy()], and the pool's [createFn(...args)]. *)
Context {T Args : Type}.
Variable isActive : T -> bool.
Variable reset : Args -> T -> T.
Variable destroyObj : T -> T.
Variable createFn : Args -> T.

(** [!obj.isActive] for a reference of the pool. *)
Definition obj_inactive (h : list T) (r : nat) : bool :=
  match h !! r with Some o => negb (isActive o) | None => false end.

Definition obj_active (h : list T) (r : nat) : bool :=
  match h !! r with Some o => isActive o | None => false end.

(** [get(...args)]: the reference returned and the new pool. *)
Definition get (args : Args) (P : ObjectPool T) : nat * ObjectPool T :=
  match List.find (obj_inactive (heap P)) (pool P) with
  | Some r =>
      match heap P !! r with
      | Some o => (r, mkObjectPool (<[r := reset args o]> (heap P)) (pool P)
                        (maxSize P))
      | None => (r, P)
      end
  | None =>
      let r := length (heap P) in
      let h' := heap P ++ [createFn args] in
      (r, mkObjectPool h'
            (if Nat.ltb (length (pool P)) (maxSize P) then pool P ++ [r]
             else pool P)
            (maxSize P))
  end.

(** [clear()]: destroy the active objects, then empty the pool. *)
Definition clear (P : ObjectPool T) : ObjectPool T :=
  let h' := fold_left (fun h r =>
              match h !! r with
              | Some o => if isActive o then <[r := destroyObj o]> h else h
              | None => h
              end) (pool P) (heap P) in
  mkObjectPool h' [] (maxSize P).

(** [getStats().active] *)
Definition activeCount (P : ObjectPool T) : nat :=
  length (List.filter (obj_active (heap P)) (pool P)).
End ObjectPoolOps.

(* ------------------------------------------------------------------ *)
(** ** Type guard of the [Poop] constructor and [Poop.reset] *)

(** The JavaScript values the [type] argument can carry at run time. *)
Inductive JsValue :=
  | JsUndefined
  | JsNull
  | JsBool (b : bool)
  | JsNum (n : Z)
  | JsStr (s : string).

(** [!!v] *)
Definition truthy (v : JsValue) : bool :=
  match v with
  | JsUndefined | JsNull => false
  | JsBool b => b
  | JsNum n => negb (Z.eqb n 0)
  | JsStr s => negb (String.eqb s "")
  end.

(** The property key [ToString(v)] used by [typeConfigs[v]]. *)
Definition property_key (v : JsValue) : string :=
  match v with
  | JsUndefined => "undefined"
  | JsNull => "null"
  | JsBool b => if b then "true" else "false"
  | JsNum n => pretty n
  | JsStr s => s
  end.

(** The properties an object literal inherits from [Object.prototype]. *)
Definition ObjectPrototype_members : list string :=
  ["constructor"; "__defineGetter__"; "__defineSetter__"; "hasOwnProperty";
   "__lookupGetter__"; "__lookupSetter__"; "isPrototypeOf";
   "propertyIsEnumerable"; "toString"; "valueOf"; "__proto__";
   "toLocaleString"].

(** What [Poop.typeConfigs[key]] yields: an own entry, an inherited member
    (a function or [Object.prototype], truthy, without a [points]
    property), or [undefined]. *)
Inductive ConfigLookup :=
  | OwnConfig (t : PoopType)
  | InheritedMember
  | Absent.

Definition typeConfigs_get (key : string) : ConfigLookup :=
  if String.eqb key "regular" then OwnConfig REGULAR
  else if String.eqb key "fancy" then OwnConfig FANCY
  else if String.eqb key "boob" then OwnConfig BOOB
  else if existsb (String.eqb key) ObjectPrototype_members then InheritedMember
  else Absent.

Definition lookup_truthy (c : ConfigLookup) : bool :=
  match c with Absent => false | _ => true end.

(** The guard [if (!type || !Poop.typeConfigs[type]) type = PoopType.REGULAR]. *)
Definition guard_type (v : JsValue) : JsValue :=
  if negb (truthy v) || negb (lookup_truthy (typeConfigs_get (property_key v)))
  then JsStr (PoopType_value REGULAR) else v.

(** The stored [type] and [points] ([None] for [undefined]) once the
    guard has run, or [None] when reading [config.points] throws. *)
Definition type_and_points (v : JsValue) : option (JsValue * option Z) :=
  match typeConfigs_get (property_key v) with
  | OwnConfig t => Some (v, Some (points (typeConfigs t)))
  | InheritedMember => Some (v, None)
  | Absent => None
  end.

(** [new Poop(scene, x, y, type)]: the projectile's [type] and [points]. *)
Definition poopConstruct (v : JsValue) : option (JsValue * option Z) :=
  type_and_points (guard_type v).

(** [poop.reset(scene, x, y, type)] on a projectile whose [type] and
    [points] are [old]: a falsy scene returns before anything changes. *)
Definition poopReset (sceneTruthy : bool) (v : JsValue)
    (old : JsValue * option Z) : option (JsValue * option Z) :=
  if negb sceneTruthy then Some old else type_and_points (guard_type v).

(** A member value of [PoopType]. *)
Definition valid_type (v : JsValue) : bool :=
  match v with
  | JsStr s => existsb (String.eqb s) ["regular"; "fancy"; "boob"]
  | _ => false
  end.

(* ------------------------------------------------------------------ *)
(** ** More of the score system *)

(** [shouldGameOverOnCatch(poopType)] *)
Definition shouldGameOverOnCatch (t : PoopType) : bool := PoopType_eqb t BOOB.

(** [shouldGameOverOnMiss()] *)
Definition shouldGameOverOnMiss (s : ScoreSystem) : bool :=
  (maxMisses s <=? consecutiveMisses s)%N.

(** The state-changing calls a session makes on the score system. *)
Inductive ScoreOp :=
  | OpAddScore (t : PoopType)
  | OpAddMiss
  | OpReset
  | OpSetMaxMisses (n : N).

Definition applyScoreOp (s : ScoreSystem) (op : ScoreOp) : ScoreSystem :=
  match op with
  | OpAddScore t => snd (fst (addScore t s))
  | OpAddMiss => snd (fst (addMiss s))
  | OpReset => fst (ScoreSystem_reset s)
  | OpSetMaxMisses n => setMaxMisses n s
  end.

Definition runScoreOps (s : ScoreSystem) (ops : list ScoreOp) : ScoreSystem :=
  fold_left applyScoreOp ops s.

(** [k] calls of [addMiss()] in a row: the signal of each call, in order,
    and the final state. *)
Fixpoint addMisses (k : nat) (s : ScoreSystem) : list bool * ScoreSystem :=
  match k with
  | O => ([], s)
  | S k' =>
      let '(go, s1, _) := addMiss s in
      let '(gos, s2) := addMisses k' s1 in
      (go :: gos, s2)
  end.

(** [getScoreMultiplier(consecutiveCatches)] *)
Definition getScoreMultiplier (consecutiveCatches : Q) : Q :=
  if Qle_bool 10 consecutiveCatches then 2
  else if Qle_bool 5 consecutiveCatches then (3#2)
  else 1.

(** [Math.round(x)]: the nearest integer, halves rounded up. *)
Definition Math_round (x : Q) : Z := Qfloor (x + (1#2)).

(** The [accuracy] field of [getStats()]. *)
Definition getStats_accuracy (s : ScoreSystem) : Q :=
  let totalAttempts := (inject_Z (Z.of_N (score s)) / 10 + inject_Z (Z.of_N (misses s)))%Q in
  let accuracy :=
    if Qltb 0 totalAttempts
    then ((totalAttempts - inject_Z (Z.of_N (misses s))) / totalAttempts * 100)%Q
    else 100%Q in
  (inject_Z (Math_round (accuracy * 100)) / 100)%Q.

(* ------------------------------------------------------------------ *)
(** ** More of the game-state manager *)

(** [getGameTime()] at time [now]. *)
Definition getGameTime (now : Z) (m : GameStateManager) : Z :=
  if GameState_eqb (currentState m) PLAY && (0 <? startTime m)%Z
  then (now - startTime m)%Z
  else gameTime m.

(** [startGame()], [endGame()] *)
Definition startGame (now : Z) (m : GameStateManager)
  : GameStateManager * list StateCallbacks :=
  transitionTo PLAY false now m.

Definition endGame (now : Z) (m : GameStateManager)
  : GameStateManager * list StateCallbacks :=
  transitionTo GAME_OVER false now m.

(** The callbacks [resetGame] runs: the reset observers, then those of the
    transition. *)
Inductive ResetCallbacks :=
  | RunReset
  | RunState (c : StateCallbacks).

(** [resetGame()] *)
Definition resetGame (now : Z) (m : GameStateManager)
  : GameStateManager * list ResetCallbacks :=
  let m1 := mkGSM (currentState m) (previousState m) (isTransitioning m) 0 0 in
  let '(m2, cbs) := transitionTo START true now m1 in
  (m2, RunReset :: map RunState cbs).

(** The calls a session makes on the state manager, each with the value
    of [Date.now()] at the call. *)
Inductive ManagerOp :=
  | MStartGame (now : Z)
  | MEndGame (now : Z)
  | MResetGame (now : Z)
  | MTransitionTo (newState : GameState) (force : bool) (now : Z).

Definition applyManagerOp (m : GameStateManager) (op : ManagerOp)
  : GameStateManager :=
  match op with
  | MStartGame now => fst (startGame now m)
  | MEndGame now => fst (endGame now m)
  | MResetGame now => fst (resetGame now m)
  | MTransitionTo st force now => fst (transitionTo st force now m)
  end.

Definition runManagerOps (m : GameStateManager) (ops : list ManagerOp)
  : GameStateManager :=
  fold_left applyManagerOp ops m.

(* ------------------------------------------------------------------ *)
(** ** The engine's catch and miss handling, wired to the state manager *)

(** The engine registers [scoreSystem.onGameOver(() =>
    gameStateManager.endGame())]: each [GameOver] event calls [endGame]. *)
Fixpoint runScoreEvents (now : Z) (evs : list ScoreEvent) (m : GameStateManager)
  : GameStateManager * list StateCallbacks :=
  match evs with
  | [] => (m, [])
  | GameOver :: rest =>
      let '(m1, c1) := endGame now m in
      let '(m2, c2) := runScoreEvents now rest m1 in
      (m2, c1 ++ c2)
  | _ :: rest => runScoreEvents now rest m
  end.

(** The score and state part of [handlePoopCatch(poop)]. *)
Definition handlePoopCatch (t : PoopType) (now : Z) (s : ScoreSystem)
    (m : GameStateManager)
  : ScoreSystem * GameStateManager * list StateCallbacks :=
  let '(_, s1, evs) := addScore t s in
  let '(m1, c1) := runScoreEvents now evs m in
  if shouldGameOverOnCatch t then
    let '(m2, c2) := endGame now m1 in (s1, m2, c1 ++ c2)
  else (s1, m1, c1).

(** The score and state part of [checkMissedPoops] for one missed
    projectile: [None] when the handler throws. *)
Definition handleMissedPoop (t : PoopType) (now : Z) (s : ScoreSystem)
    (m : GameStateManager)
  : option (ScoreSystem * GameStateManager * list StateCallbacks) :=
  match checkMissedPoop t s with
  | MissTypeError _ => None
  | MissHandled s1 evs gameOver =>
      let '(m1, c1) := runScoreEvents now evs m in
      if gameOver then
        let '(m2, c2) := endGame now m1 in Some (s1, m2, c1 ++ c2)
      else Some (s1, m1, c1)
  end.

(* ------------------------------------------------------------------ *)
(** ** More of the PerformanceManager *)

Open Scope Q_scope.

(** [maxHistoryLength = 60] *)
Definition maxHistoryLength : nat := 60.

(** [frameTimeHistory.push(frameTime)], then [shift()] when the history
    has grown beyond [maxHistoryLength]. *)
Definition pushFrameTime (h : list Q) (frameTime : Q) : list Q :=
  let h' := h ++ [frameTime] in
  if Nat.ltb maxHistoryLength (length h') then tl h' else h'.

(** The part of [updateMetrics(frameTime)] that feeds the controller, with
    [now] the value of [performance.now()]. *)
Definition updateMetrics (init : QualitySettings) (now frameTime : Q)
    (p : PerfState) : PerfState :=
  checkPerformanceAndAdjust init now
    (mkPerf (qualitySettings p) (pushFrameTime (frameTimeHistory p) frameTime)
       (lastQualityAdjustment p)).

(** A sequence of [updateMetrics] calls, each given as the pair
    [(now, frameTime)]. *)
Definition runUpdates (init : QualitySettings) (p : PerfState)
    (calls : list (Q * Q)) : PerfState :=
  fold_left (fun p c => updateMetrics init (fst c) (snd c) p) calls p.

(** JavaScript's [x || d] on a number that may be [undefined]: [0] and
    [undefined] are falsy. *)
Definition num_or (x : option Q) (d : Q) : Q :=
  match x with
  | Some v => if Qeq_bool v 0 then d else v
  | None => d
  end.

(** [estimateMemory()] *)
Definition estimateMemory (width height : Q) : Q :=
  let totalPixels := width * height in
  if Qltb 2000000 totalPixels then 4
  else if Qltb 1000000 totalPixels then 2
  else 1.

(** [isLowEndDevice(isMobile, memory, hardwareConcurrency, screenSize)] *)
Definition isLowEndDevice (isMobile : bool) (memory hardwareConcurrency width height : Q)
  : bool :=
  if negb isMobile then false
  else Qle_bool memory 2 || Qle_bool hardwareConcurrency 2 ||
       Qltb (width * height) 800000.

(** [determineCapability(isMobile, isLowEnd, memory, hardwareConcurrency)] *)
Definition determineCapability (isMobile isLowEnd : bool) (memory hardwareConcurrency : Q)
  : DeviceCapability :=
  if negb isMobile then HIGH
  else if isLowEnd then LOW
  else if Qle_bool 4 memory && Qle_bool 4 hardwareConcurrency then HIGH
  else MEDIUM.

(** The capability computed by [detectDevice()], from whether the user
    agent is a mobile one, [navigator.deviceMemory],
    [navigator.hardwareConcurrency] and the screen size. *)
Definition detectCapability (isMobile : bool) (deviceMemory concurrency : option Q)
    (width height : Q) : DeviceCapability :=
  let hardwareConcurrency := num_or concurrency 4 in
  let memory := num_or deviceMemory (estimateMemory width height) in
  let isLowEnd := isLowEndDevice isMobile memory hardwareConcurrency width height in
  determineCapability isMobile isLowEnd memory hardwareConcurrency.

Close Scope Q_scope.

(* ------------------------------------------------------------------ *)
(** ** More of the object pool *)

Section ObjectPoolMore.
Context {T Args : Type}.
Variable isActive : T -> bool.
Variable reset : Args -> T -> T.
Variable destroyObj : T -> T.
Variable createFn : Args -> T.

(** [new ObjectPool(createFn, initialSize, maxSize)]: [initialSize]
    objects made by [createFn()] with the arguments [noArgs] of an empty
    call, each destroyed at once, all kept by the pool. *)
Definition ObjectPool_new (noArgs : Args) (initialSize maxSize : nat) : ObjectPool T :=
  mkObjectPool (repeat (destroyObj (createFn noArgs)) initialSize)
    (seq 0 initialSize) maxSize.

(** A sequence of [get(...args)] calls. *)
Definition runGets (P : ObjectPool T) (calls : list Args) : ObjectPool T :=
  fold_left (fun P args => snd (get isActive reset createFn args P)) calls P.
End ObjectPoolMore.

(* ------------------------------------------------------------------ *)
(** ** Projectiles ([src/client/entities/Poop.ts]) and their pool
    ([PoopPool]) *)

Open Scope Q_scope.

(** What the game reads of a projectile: the [isActive] flag, [type] and
    [points] ([None] for [undefined]), the position, the vertical
    velocity and [screenBottom].  The rotation is not modelled. *)
Record PoopEntity := mkPoopEntity {
  pActive : bool;
  pType : JsValue;
  pPoints : option Z;
  pX : Q;
  pY : Q;
  pVelY : Q;
  pScreenBottom : Q
}.

(** [baseSpeed + (Math.random() - 0.5) * 50], for the value [random] of
    [Math.random()]. *)
Definition fallSpeedOf (random : Q) : Q := 200 + (random - (1#2)) * 50.

(** [new Poop(scene, x, y, type, screenBottom)]: [None] when reading the
    configuration throws. *)
Definition newPoop (x y : Q) (v : JsValue) (screenBottom random : Q)
  : option PoopEntity :=
  match poopConstruct v with
  | Some (t, pts) => Some (mkPoopEntity true t pts x y (- fallSpeedOf random) screenBottom)
  | None => None
  end.

(** [poop.reset(scene, x, y, type, screenBottom)]: a falsy scene returns
    before anything changes. *)
Definition resetPoop (sceneTruthy : bool) (x y : Q) (v : JsValue)
    (screenBottom random : Q) (o : PoopEntity) : option PoopEntity :=
  if negb sceneTruthy then Some o
  else
    match type_and_points (guard_type v) with
    | Some (t, pts) => Some (mkPoopEntity true t pts x y (- fallSpeedOf random) screenBottom)
    | None => None
    end.

(** [Entity.destroy()] as far as the projectile's state goes. *)
Definition destroyPoop (o : PoopEntity) : PoopEntity :=
  mkPoopEntity false (pType o) (pPoints o) (pX o) (pY o) (pVelY o) (pScreenBottom o).

(** [poop.update(deltaTime)]: [baseUpdate] moves an active projectile by
    its velocity times [deltaTime / 1000]. *)
Definition updatePoop (deltaTime : Q) (o : PoopEntity) : PoopEntity :=
  if negb (pActive o) then o
  else mkPoopEntity (pActive o) (pType o) (pPoints o) (pX o)
         (pY o + pVelY o * (deltaTime / 1000)) (pVelY o) (pScreenBottom o).

(** [isOffScreen()] *)
Definition isOffScreen (o : PoopEntity) : bool := Qltb (pY o) (pScreenBottom o).

(** [createPoop()]: [new Poop(this.scene, 0, 0, PoopType.REGULAR,
    this.screenBottom)], the regular entry of the table written out. *)
Definition createPoop (screenBottom random : Q) : PoopEntity :=
  mkPoopEntity true (JsStr "regular") (Some 10%Z) 0 0 (- fallSpeedOf random) screenBottom.

(** [PoopPool.getPoop(x, y, type)]: [pool.get()] with no argument, which
    calls [reset()] with an undefined scene and so leaves a reused
    projectile as it is, then [poop.reset(this.scene, x, y, type,
    this.screenBottom)].  [randomCreate] and [randomReset] are the values
    of [Math.random()] drawn by a creation and by the reset. *)
Definition getPoop (sceneTruthy : bool) (screenBottom : Q) (x y : Q) (v : JsValue)
    (randomCreate randomReset : Q) (P : ObjectPool PoopEntity)
  : option (nat * ObjectPool PoopEntity) :=
  let '(r, P1) :=
    get pActive (fun (_ : unit) o => o) (fun _ => createPoop screenBottom randomCreate)
      tt P in
  match heap P1 !! r with
  | Some o =>
      match resetPoop sceneTruthy x y v screenBottom randomReset o with
      | Some o' => Some (r, mkObjectPool (<[r := o']> (heap P1)) (pool P1) (maxSize P1))
      | None => None
      end
  | None => None
  end.

Close Scope Q_scope.

(* ------------------------------------------------------------------ *)
(** ** The shooter ([src/client/entities/Baby.ts]) *)

Open Scope Q_scope.

(** The state that drives the shooting: [isActive], [shootTimer],
    [shootInterval], [gameTime] and [lastShootRateUpdate].  The
    oscillation, which only moves the sprite, is not modelled. *)
Record Baby := mkBaby {
  babyActive : bool;
  shootTimer : Q;
  shootInterval : Q;
  babyGameTime : Q;
  lastShootRateUpdate : Z
}.

(** [resetShootTimer()], for the value [random] of [Math.random()]. *)
Definition resetShootTimer (random : Q) (b : Baby) : Baby :=
  mkBaby (babyActive b) (shootInterval b * ((1#2) + random)) (shootInterval b)
    (babyGameTime b) (lastShootRateUpdate b).

(** [updateShootingRate()] *)
Definition updateShootingRate (b : Baby) : Baby :=
  let currentInterval := Qfloor (babyGameTime b / 15000) in
  if (lastShootRateUpdate b <? currentInterval)%Z
  then mkBaby (babyActive b) (shootTimer b) (Qmax 500 (shootInterval b * (9#10)))
         (babyGameTime b) currentInterval
  else b.

(** [updateShooting(deltaTime)]: the new state and whether [shoot()] was
    called. *)
Definition updateShooting (deltaTime random : Q) (b : Baby) : Baby * bool :=
  let b1 := mkBaby (babyActive b) (shootTimer b - deltaTime) (shootInterval b)
              (babyGameTime b) (lastShootRateUpdate b) in
  if Qle_bool (shootTimer b1) 0 then (resetShootTimer random b1, true)
  else (b1, false).

(** [update(deltaTime)], with [random] the value [Math.random()] would
    return if the timer is reset. *)
Definition updateBaby (deltaTime random : Q) (b : Baby) : Baby * bool :=
  if negb (babyActive b) then (b, false)
  else
    let b1 := mkBaby (babyActive b) (shootTimer b) (shootInterval b)
                (babyGameTime b + deltaTime) (lastShootRateUpdate b) in
    updateShooting deltaTime random (updateShootingRate b1).

(** [reset()] *)
Definition resetBaby (random : Q) (b : Baby) : Baby :=
  resetShootTimer random (mkBaby (babyActive b) (shootTimer b) 2000 0 0).

(** A sequence of updates, each given as [(deltaTime, random)]: the final
    state and the number of shots. *)
Fixpoint runBaby (calls : list (Q * Q)) (b : Baby) : Baby * nat :=
  match calls with
  | [] => (b, 0%nat)
  | c :: rest =>
      let '(b1, shot) := updateBaby (fst c) (snd c) b in
      let '(b2, n) := runBaby rest b1 in
      (b2, ((if shot then 1 else 0) + n)%nat)
  end.

Close Scope Q_scope.

(* ------------------------------------------------------------------ *)
(** ** The catcher ([src/client/entities/Diaper.ts]) *)

Open Scope Q_scope.

(** The horizontal state: [isActive], [position.x], [targetX], the
    movement bounds and [speed].  The bobbing, which only moves the sprite
    vertically, is not modelled. *)
Record Diaper := mkDiaper {
  diaperActive : bool;
  diaperX : Q;
  targetX : Q;
  boundLeft : Q;
  boundRight : Q;
  speed : Q
}.

Definition with_diaperX (d : Diaper) (x : Q) : Diaper :=
  mkDiaper (diaperActive d) x (targetX d) (boundLeft d) (boundRight d) (speed d).
Definition with_targetX (d : Diaper) (x : Q) : Diaper :=
  mkDiaper (diaperActive d) (diaperX d) x (boundLeft d) (boundRight d) (speed d).

(** [Math.sign] *)
Definition Qsign (x : Q) : Q := if Qltb 0 x then 1 else if Qltb x 0 then -1 else 0.

(** [moveLeft()], [moveRight()], [setTargetX(x)] *)
Definition moveLeft (d : Diaper) : Diaper :=
  with_targetX d (Qmax (boundLeft d) (targetX d - 50)).
Definition moveRight (d : Diaper) : Diaper :=
  with_targetX d (Qmin (boundRight d) (targetX d + 50)).
Definition setTargetX (x : Q) (d : Diaper) : Diaper :=
  with_targetX d (Qmax (boundLeft d) (Qmin (boundRight d) x)).

(** [checkBounds()] *)
Definition checkBounds (d : Diaper) : Diaper :=
  let '(x1, ch1) :=
    if Qltb (diaperX d) (boundLeft d) then (boundLeft d, true)
    else if Qltb (boundRight d) (diaperX d) then (boundRight d, true)
    else (diaperX d, false) in
  let '(t1, ch2) :=
    if Qltb (targetX d) (boundLeft d) then (boundLeft d, true)
    else if Qltb (boundRight d) (targetX d) then (boundRight d, true)
    else (targetX d, ch1) in
  let t2 :=
    if ch2 && (Qeq_bool x1 (boundLeft d) || Qeq_bool x1 (boundRight d)) then x1
    else t1 in
  mkDiaper (diaperActive d) x1 t2 (boundLeft d) (boundRight d) (speed d).

(** [updateMovement(deltaTime)] *)
Definition updateMovement (deltaTime : Q) (d : Diaper) : Diaper :=
  let deltaSeconds := deltaTime / 1000 in
  let deltaX := targetX d - diaperX d in
  if Qltb (Qabs deltaX) (1#2) then with_diaperX d (targetX d)
  else
    let moveAmount := deltaX * 8 * deltaSeconds in
    let maxMoveDistance := speed d * deltaSeconds in
    let clampedMove := Qsign moveAmount * Qmin (Qabs moveAmount) maxMoveDistance in
    checkBounds (with_diaperX d (diaperX d + clampedMove)).

(** [update(deltaTime)], horizontal part. *)
Definition updateDiaper (deltaTime : Q) (d : Diaper) : Diaper :=
  if negb (diaperActive d) then d
  else checkBounds (updateMovement deltaTime d).

(** The input calls the engine makes on the catcher, and frame updates. *)
Inductive DiaperOp :=
  | DMoveLeft
  | DMoveRight
  | DSetTargetX (x : Q)
  | DUpdate (deltaTime : Q).

Definition applyDiaperOp (d : Diaper) (op : DiaperOp) : Diaper :=
  match op with
  | DMoveLeft => moveLeft d
  | DMoveRight => moveRight d
  | DSetTargetX x => setTargetX x d
  | DUpdate dt => updateDiaper dt d
  end.

Definition runDiaper (d : Diaper) (ops : list DiaperOp) : Diaper :=
  fold_left applyDiaperOp ops d.

Close Scope Q_scope.

Open Scope Q_scope.

(** What [reset()] sets up and every [update(deltaTime)] keeps. *)
Definition baby_inv (b : Baby) : Prop :=
  babyActive b = true /\ 0 <= babyGameTime b /\
  lastShootRateUpdate b = Qfloor (babyGameTime b / 15000) /\
  shootInterval b == Qmax 500 (2000 * (9#10) ^ lastShootRateUpdate b) /\
  0 < shootTimer b.

Close Scope Q_scope.

(* ================================================================== *)
(** * Theorems *)

(** C4: [addScore] awards 10 or 50 points and clears the consecutive
    misses for the regular and fancy types; for the lethal type it awards
    nothing, changes nothing and fires the game-over callbacks, whatever
    the consecutive-miss count. *)
Theorem addScore_spec (s : ScoreSystem) :
  addScore REGULAR s
    = (10%N, mkScoreSystem (score s + 10) (misses s) 0 (maxMisses s),
       [ScoreUpdate (score s + 10)]) /\
  addScore FANCY s
    = (50%N, mkScoreSystem (score s + 50) (misses s) 0 (maxMisses s),
       [ScoreUpdate (score s + 50)]) /\
  addScore BOOB s = (0%N, s, [GameOver]).
Proof. destruct s; repeat split. Qed.

(** C5: [addMiss] increments both miss counters by one and signals (and
    fires) game over exactly when the new consecutive count reaches the
    maximum; with the maximum at 2, two misses in a row end the game and a
    catch between two misses prevents it. *)
Theorem addMiss_spec (s : ScoreSystem) :
  (let '(go, s', evs) := addMiss s in
   misses s' = (misses s + 1)%N /\
   consecutiveMisses s' = (consecutiveMisses s + 1)%N /\
   score s' = score s /\ maxMisses s' = maxMisses s /\
   (go = true <-> (maxMisses s <= consecutiveMisses s + 1)%N) /\
   (In GameOver evs <-> go = true)) /\
  (maxMisses s = 2%N ->
   (let '(_, s1, _) := addMiss s in fst (fst (addMiss s1)) = true) /\
   (forall t, t <> BOOB ->
      let '(_, s1, _) := addMiss s in
      let '(_, s2, _) := addScore t s1 in
      fst (fst (addMiss s2)) = false)).
Proof.
  destruct s as [sc m c mx]; split.
  - unfold addMiss; simpl.
    destruct (N.leb_spec mx (c + 1)) as [H|H]; simpl;
      (split; [reflexivity|]); (split; [reflexivity|]);
      (split; [reflexivity|]); (split; [reflexivity|]).
    + split; [tauto|]. split; [auto|]. intros _; right; now left.
    + split; [split; [discriminate|lia]|].
      split; [intros [E|[]]; discriminate|discriminate].
  - simpl; intros ->. split.
    + unfold addMiss; simpl.
      destruct (N.leb_spec 2 (c + 1)); simpl;
        destruct (N.leb_spec 2 (c + 1 + 1)); simpl; auto; lia.
    + intros t Ht. unfold addMiss; simpl.
      destruct (N.leb_spec 2 (c + 1)); simpl;
        destruct t; try congruence; reflexivity.
Qed.

Lemma addMiss_spec_witness :
  maxMisses ScoreSystem_init = 2%N /\
  (let '(_, s1, _) := addMiss ScoreSystem_init in
   fst (fst (addMiss s1)) = true).
Proof.
  split; [reflexivity|].
  exact (proj1 (proj2 (addMiss_spec ScoreSystem_init) eq_refl)).
Defined.

(** C1: a lethal projectile that falls off screen leaves the score state
    untouched and does not end the game: the engine tests it against
    [PoopType.BOMB], which the enum does not declare, so neither
    [addMiss] nor [resetConsecutiveMisses] is reached and a pending
    consecutive miss stays (the spec's reset would clear it). *)
Theorem checkMissedPoop_lethal (s : ScoreSystem) :
  checkMissedPoop BOOB s = MissHandled s [] false /\
  consecutiveMisses (resetConsecutiveMisses_spec s) = 0%N.
Proof. split; reflexivity. Qed.

(** C2: from START a non-forced [transitionTo(GAME_OVER)] is carried out,
    with its exit, enter and change callbacks, although the transition
    table does not contain START to GAME_OVER. *)
Theorem transitionTo_start_game_over_accepted (now : Z) :
  transitionTo GAME_OVER false now GameStateManager_init
    = (mkGSM GAME_OVER START false 0 0,
       [RunExit START; RunEnter GAME_OVER; RunChange GAME_OVER]) /\
  isValidTransition START GAME_OVER = false.
Proof. split; reflexivity. Qed.

(** Pairs outside the table that [transitionTo] does reject: a state to
    itself, unless forced. *)
Lemma transitionTo_same_state_rejected (st : GameState) (now : Z)
    (m : GameStateManager) :
  currentState m = st -> transitionTo st false now m = (m, []).
Proof.
  intros <-. unfold transitionTo.
  destruct (currentState m); reflexivity.
Qed.

(** *** Arithmetic facts for the quality controller *)

Lemma Qltb_true (a b : Q) : Qltb a b = true <-> (a < b)%Q.
Proof.
  unfold Qltb. rewrite negb_true_iff. split.
  - intros H. apply Qnot_le_lt. intros H'.
    apply Qle_bool_iff in H'. congruence.
  - intros H. destruct (Qle_bool b a) eqn:E; [|reflexivity].
    apply Qle_bool_iff in E. exfalso. apply (Qlt_not_le a b); assumption.
Qed.

Lemma Qltb_false (a b : Q) : Qltb a b = false <-> (b <= a)%Q.
Proof.
  unfold Qltb. rewrite negb_false_iff. apply Qle_bool_iff.
Qed.

Lemma Qmax_cases (a b : Q) :
  (Qmax a b = b /\ (a < b)%Q) \/ (Qmax a b = a /\ (b <= a)%Q).
Proof.
  unfold Qmax, GenericMinMax.gmax.
  destruct (Qcompare_spec a b) as [H|H|H].
  - right. split; [reflexivity|]. rewrite H. apply Qle_refl.
  - left. split; [reflexivity|assumption].
  - right. split; [reflexivity|]. apply Qlt_le_weak; assumption.
Qed.

Lemma Qmin_cases (a b : Q) :
  (Qmin a b = a /\ (a <= b)%Q) \/ (Qmin a b = b /\ (b < a)%Q).
Proof.
  unfold Qmin, GenericMinMax.gmin.
  destruct (Qcompare_spec a b) as [H|H|H].
  - left. split; [reflexivity|]. rewrite H. apply Qle_refl.
  - left. split; [reflexivity|]. apply Qlt_le_weak; assumption.
  - right. split; [reflexivity|assumption].
Qed.

(** A step down to a floor [f] below [x] changes [x]. *)
Lemma step_down_changes (f x d : Q) :
  (0 < d)%Q -> (f < x)%Q -> Qeq_bool x (Qmax f (x - d)) = false.
Proof.
  intros Hd Hx. apply not_true_iff_false. rewrite Qeq_bool_iff.
  destruct (Qmax_cases f (x - d)) as [[-> _]|[-> _]]; lra.
Qed.

(** A step up to a ceiling [c] above [x] changes [x]. *)
Lemma step_up_changes (c x d : Q) :
  (0 < d)%Q -> (x < c)%Q -> Qeq_bool x (Qmin c (x + d)) = false.
Proof.
  intros Hd Hx. apply not_true_iff_false. rewrite Qeq_bool_iff.
  destruct (Qmin_cases c (x + d)) as [[-> _]|[-> _]]; lra.
Qed.

Lemma set_changes (x v : Q) : Qltb v x = true -> Qeq_bool x v = false.
Proof.
  rewrite Qltb_true. intros H. apply not_true_iff_false. rewrite Qeq_bool_iff.
  lra.
Qed.

Lemma set_up_changes (x v : Q) : Qltb x v = true -> Qeq_bool x v = false.
Proof.
  rewrite Qltb_true. intros H. apply not_true_iff_false. rewrite Qeq_bool_iff.
  lra.
Qed.

Ltac dims_simpl :=
  unfold changed_dims, first_dim, all_dims, reducible, increasable,
    with_particleCount, with_pixelRatio, with_antialiasing,
    with_textureQuality, with_maxEntities; simpl;
  repeat rewrite Qeq_bool_refl; repeat rewrite eqb_reflx; simpl.

Lemma reduceQuality_dims (q : QualitySettings) :
  changed_dims q (fst (reduceQuality q)) = first_dim (reducible q).
Proof.
  destruct q as [pr pc sh aa tq me tf]. unfold reduceQuality; simpl.
  destruct (Qltb 5 pc) eqn:E1.
  - dims_simpl. rewrite E1.
    rewrite (step_down_changes 5 pc 5) by (try apply Qltb_true; auto; lra).
    reflexivity.
  - destruct (Qltb (1#2) pr) eqn:E2.
    + dims_simpl. rewrite E1, E2.
      rewrite (step_down_changes (1#2) pr (1#4)) by (try apply Qltb_true; auto; lra).
      reflexivity.
    + destruct aa.
      * dims_simpl. rewrite E1, E2. reflexivity.
      * destruct (Qltb (1#2) tq) eqn:E4.
        -- dims_simpl. rewrite E1, E2, E4, (set_changes tq (1#2) E4).
           reflexivity.
        -- destruct (Qltb 10 me) eqn:E5.
           ++ dims_simpl. rewrite E1, E2, E4, E5.
              rewrite (step_down_changes 10 me 10) by (try apply Qltb_true; auto; lra).
              reflexivity.
           ++ dims_simpl. rewrite E1, E2, E4, E5. reflexivity.
Qed.

Lemma increaseQuality_dims (init q : QualitySettings) :
  changed_dims q (fst (increaseQuality init q)) = first_dim (increasable init q).
Proof.
  destruct init as [pr0 pc0 sh0 aa0 tq0 me0 tf0].
  destruct q as [pr pc sh aa tq me tf]. unfold increaseQuality; simpl.
  destruct (Qltb pc pc0) eqn:E1.
  - dims_simpl. rewrite E1.
    rewrite (step_up_changes pc0 pc 5) by (try apply Qltb_true; auto; lra).
    reflexivity.
  - destruct (Qltb pr pr0) eqn:E2.
    + dims_simpl. rewrite E1, E2.
      rewrite (step_up_changes pr0 pr (1#4)) by (try apply Qltb_true; auto; lra).
      reflexivity.
    + destruct (negb aa && aa0) eqn:E3.
      * apply andb_true_iff in E3. destruct E3 as [E3 ->].
        apply negb_true_iff in E3. subst aa.
        dims_simpl. rewrite E1, E2. reflexivity.
      * destruct (Qltb tq tq0) eqn:E4.
        -- dims_simpl. rewrite E1, E2, E3, E4, (set_up_changes tq tq0 E4).
           reflexivity.
        -- destruct (Qltb me me0) eqn:E5.
           ++ dims_simpl. rewrite E1, E2, E3, E4, E5.
              rewrite (step_up_changes me0 me 10) by (try apply Qltb_true; auto; lra).
              reflexivity.
           ++ dims_simpl. rewrite E1, E2, E3, E4, E5. reflexivity.
Qed.

Lemma reduceQuality_keeps (q : QualitySettings) :
  shadowQuality (fst (reduceQuality q)) = shadowQuality q /\
  targetFPS (fst (reduceQuality q)) = targetFPS q /\
  snd (reduceQuality q) = existsb (reducible q) all_dims.
Proof.
  destruct q as [pr pc sh aa tq me tf]. unfold reduceQuality; simpl.
  destruct (Qltb 5 pc), (Qltb (1#2) pr), aa, (Qltb (1#2) tq), (Qltb 10 me);
    repeat split.
Qed.

Lemma increaseQuality_keeps (init q : QualitySettings) :
  shadowQuality (fst (increaseQuality init q)) = shadowQuality q /\
  targetFPS (fst (increaseQuality init q)) = targetFPS q /\
  snd (increaseQuality init q) = canIncreaseQuality init q.
Proof.
  destruct init as [pr0 pc0 sh0 aa0 tq0 me0 tf0].
  destruct q as [pr pc sh aa tq me tf].
  unfold increaseQuality, canIncreaseQuality; simpl.
  destruct (Qltb pc pc0), (Qltb pr pr0), (negb aa && aa0), (Qltb tq tq0),
    (Qltb me me0); repeat split.
Qed.

(** C3 (as the code has it): once the cooldown has elapsed and at least 30
    frame times are recorded, an average FPS below 80% of the target
    changes exactly the first dimension above its floor in the order
    particle budget, pixel ratio, anti-aliasing, texture quality, entity
    budget (none when all are at their floors); an average FPS above 120%
    of the target, when some dimension is below the tier's initial
    setting, changes exactly the first such dimension in the same order,
    particle budget first. *)
Theorem quality_adjustment_one_dimension (init : QualitySettings) (now : Q)
    (p : PerfState) :
  (qualityAdjustmentCooldown <= now - lastQualityAdjustment p)%Q ->
  (30 <= length (frameTimeHistory p))%nat ->
  let q := qualitySettings p in
  let q' := qualitySettings (checkPerformanceAndAdjust init now p) in
  let fps := averageFPS (frameTimeHistory p) in
  ((fps < targetFPS q * (8#10))%Q ->
     changed_dims q q' = first_dim (reducible q)) /\
  ((targetFPS q * (8#10) <= fps)%Q -> (targetFPS q * (12#10) < fps)%Q ->
     canIncreaseQuality init q = true ->
     changed_dims q q' = first_dim (increasable init q)).
Proof.
  intros Hcool Hlen q q' fps.
  assert (Hc : Qltb (now - lastQualityAdjustment p) qualityAdjustmentCooldown
               = false) by (apply Qltb_false; exact Hcool).
  assert (Hl : Nat.ltb (length (frameTimeHistory p)) 30 = false)
    by (apply Nat.ltb_ge; exact Hlen).
  subst q q' fps. unfold checkPerformanceAndAdjust. rewrite Hc, Hl.
  split.
  - intros Hlow. apply Qltb_true in Hlow. rewrite Hlow. simpl.
    apply reduceQuality_dims.
  - intros Hnot Hhigh Hcan.
    apply Qltb_false in Hnot. apply Qltb_true in Hhigh.
    rewrite Hnot, Hhigh, Hcan. simpl. apply increaseQuality_dims.
Qed.

Lemma quality_adjustment_one_dimension_witness :
  (qualityAdjustmentCooldown
     <= 5000 - lastQualityAdjustment (perf_with desktop_init 100))%Q /\
  (30 <= length (frameTimeHistory (perf_with desktop_init 100)))%nat /\
  changed_dims desktop_init
    (qualitySettings (checkPerformanceAndAdjust desktop_init 5000
                        (perf_with desktop_init 100)))
  = [DParticles].
Proof.
  assert (H1 : (qualityAdjustmentCooldown
                <= 5000 - lastQualityAdjustment (perf_with desktop_init 100))%Q)
    by (unfold qualityAdjustmentCooldown; simpl; lra).
  assert (H2 : (30 <= length (frameTimeHistory (perf_with desktop_init 100)))%nat)
    by (simpl; lia).
  split; [exact H1|]. split; [exact H2|].
  refine (eq_trans
    (proj1 (quality_adjustment_one_dimension desktop_init 5000
              (perf_with desktop_init 100) H1 H2) _) _).
  - vm_compute. reflexivity.
  - vm_compute. reflexivity.
Defined.

(** C3 (as claimed, refuted): the downgrade also has a texture-quality
    step the claimed order lacks, and the upgrade raises the particle
    budget first, not the entity budget, even when the entity budget is
    below its initial value. *)
Lemma quality_adjustment_order_counterexample :
  let low := mkQuality (1#2) 5 true false 1 60 60 in
  let high := mkQuality 1 10 true true 1 40 60 in
  changed_dims low
    (qualitySettings (checkPerformanceAndAdjust desktop_init 5000
                        (perf_with low 100))) = [DTexture] /\
  increasable desktop_init high DEntities = true /\
  changed_dims high
    (qualitySettings (checkPerformanceAndAdjust desktop_init 5000
                        (perf_with high 5))) = [DParticles].
Proof. vm_compute. repeat split. Qed.

(** C6: the drawn type is lethal below the constant 0.15, high-value below
    0.15 plus [min(0.40, 0.25 + floor(S/100) * 0.05)], low-value
    otherwise; whether a draw is lethal does not depend on the score. *)
Theorem createRandomType_rule (S : Z) (r : Q) :
  createRandomType S r
    = selectType_spec (probability (typeConfigs BOOB))
        (probability (typeConfigs FANCY)) S r /\
  probability (typeConfigs BOOB) = (15#100)%Q /\
  probability (typeConfigs FANCY) = (25#100)%Q /\
  (forall S' : Z, createRandomType S r = BOOB <-> createRandomType S' r = BOOB).
Proof.
  split; [reflexivity|]. split; [reflexivity|]. split; [reflexivity|].
  intros S'. unfold createRandomType.
  destruct (Qltb r (probability (typeConfigs BOOB))); [tauto|].
  destruct (Qltb r _), (Qltb r _); split; discriminate.
Qed.

Lemma find_first {A} (f : A -> bool) (l : list A) (x : A) :
  List.find f l = Some x ->
  exists l1 l2, l = l1 ++ x :: l2 /\ Forall (fun y => f y = false) l1 /\
                f x = true.
Proof.
  induction l as [|a l IH]; simpl; [discriminate|].
  destruct (f a) eqn:E.
  - intros [= <-]. exists [], l. auto.
  - intros H. destruct (IH H) as (l1 & l2 & -> & Hf & Hx).
    exists (a :: l1), l2. split; [reflexivity|]. split; [constructor; auto|auto].
Qed.

Lemma find_none {A} (f : A -> bool) (l : list A) :
  List.find f l = None -> Forall (fun y => f y = false) l.
Proof.
  induction l as [|a l IH]; simpl; [constructor|].
  destruct (f a) eqn:E; [discriminate|]. intros H. constructor; auto.
Qed.

Lemma checkDiaperPoopCollisions_find (d : Body) (ps : list Body) :
  checkDiaperPoopCollisions d ps = List.find (checkDiaperPoopCollision d) ps.
Proof. induction ps as [|p ps IH]; simpl; [reflexivity|]. now rewrite IH. Qed.

(** C9: the pairwise test is false when either entity is inactive and
    otherwise is the strict AABB test on centre distances and half-sizes;
    the query (a function of the entities that returns no updated entity)
    yields the first projectile of the array that passes the test, or
    none when none does. *)
Theorem collision_query_first_match (d : Body) (ps : list Body) :
  (forall p : Body,
     checkDiaperPoopCollision d p = true <->
     bodyActive d = true /\ bodyActive p = true /\
     (Qabs (posX d - posX p) < diaperWidth / 2 + poopWidth / 2)%Q /\
     (Qabs (posY d - posY p) < diaperHeight / 2 + poopHeight / 2)%Q) /\
  match checkDiaperPoopCollisions d ps with
  | Some p =>
      exists l1 l2, ps = l1 ++ p :: l2 /\
        Forall (fun x => checkDiaperPoopCollision d x = false) l1 /\
        checkDiaperPoopCollision d p = true
  | None => Forall (fun x => checkDiaperPoopCollision d x = false) ps
  end.
Proof.
  split.
  - intros p. unfold checkDiaperPoopCollision.
    destruct (bodyActive d), (bodyActive p); simpl;
      try (split; [discriminate|intros (? & ? & _); discriminate]).
    rewrite andb_true_iff, !Qltb_true. tauto.
  - rewrite checkDiaperPoopCollisions_find.
    destruct (List.find _ ps) eqn:E.
    + now apply find_first.
    + now apply find_none.
Qed.

(** C7 (as the code has it): [destroy] marks the entity inactive and
    detaches its mesh; a second call ends in the same state and does not
    detach again, but calls [dispose()] on the geometry and the material
    again, so each call releases them once more. *)
Theorem destroy_repeat (e : EntityState) :
  fst (destroy_twice e) = fst (destroy e) /\
  entActive (fst (destroy e)) = false /\
  meshInScene (fst (destroy e)) = false /\
  (count_calls DetachMesh (snd (destroy_twice e)) <= 1)%nat /\
  count_calls DisposeGeometry (snd (destroy e)) = 1%nat /\
  count_calls DisposeGeometry (snd (destroy_twice e)) = 2%nat /\
  count_calls DisposeMaterial (snd (destroy_twice e))
    = (2 * count_calls DisposeMaterial (snd (destroy e)))%nat.
Proof.
  assert (Happ : forall c l1 l2,
            count_calls c (l1 ++ l2) = (count_calls c l1 + count_calls c l2)%nat)
    by (intros c l1 l2; induction l1 as [|x l1 IH]; simpl; lia).
  assert (Hrep : forall c n, count_calls c (repeat DisposeMaterial n)
                   = match c with DisposeMaterial => n | _ => 0%nat end)
    by (intros c n; induction n as [|n IH]; [now destruct c|];
        destruct c; simpl in *; lia).
  destruct e as [a sc [|n]]; unfold destroy_twice, destroy; simpl;
    destruct sc; simpl; repeat split; rewrite ?Happ, ?Hrep; simpl;
    rewrite ?Hrep; simpl; lia.
Qed.

(** C7 (as claimed, refuted): destroying a fresh entity twice disposes its
    geometry and its material twice. *)
Lemma destroy_twice_disposes_twice :
  let e := mkEntity true true SingleMaterial in
  count_calls DisposeGeometry (snd (destroy_twice e)) = 2%nat /\
  count_calls DisposeMaterial (snd (destroy_twice e)) = 2%nat.
Proof. split; reflexivity. Qed.

Section ObjectPoolProofs.
Context {T Args : Type}.
Variable isActive : T -> bool.
Variable reset : Args -> T -> T.
Variable destroyObj : T -> T.
Variable createFn : Args -> T.

Lemma lookup_app_singleton_ne (h : list T) (x : T) (r : nat) :
  r <> length h -> (h ++ [x]) !! r = h !! r.
Proof.
  intros Hr. destruct (decide (r < length h)) as [Hlt|Hge].
  - now apply lookup_app_l.
  - rewrite lookup_app_r by lia.
    rewrite (lookup_ge_None_2 h r) by lia.
    apply lookup_ge_None_2. simpl. lia.
Qed.

(** C8: [get] returns the first inactive object of the pool array, reset,
    and leaves every other object of the heap as it was (so no object
    that was active is returned or deactivated); without an inactive
    object it returns a fresh object, appended to the pool exactly when
    the pool is below [maxSize]; [clear] empties the pool, so no object
    is reported active. *)
Theorem pool_get_first_inactive (args : Args) (P : ObjectPool T) :
  (let '(r, P') := get isActive reset createFn args P in
   (forall r', r' <> r -> heap P' !! r' = heap P !! r') /\
   match List.find (obj_inactive isActive (heap P)) (pool P) with
   | Some r0 =>
       r = r0 /\ pool P' = pool P /\
       (exists l1 l2, pool P = l1 ++ r0 :: l2 /\
          Forall (fun x => obj_inactive isActive (heap P) x = false) l1) /\
       (exists o, heap P !! r = Some o /\ isActive o = false /\
                  heap P' !! r = Some (reset args o))
   | None =>
       r = length (heap P) /\ heap P !! r = None /\
       heap P' = heap P ++ [createFn args] /\
       ((length (pool P) < maxSize P)%nat -> pool P' = pool P ++ [r]) /\
       ((maxSize P <= length (pool P))%nat -> pool P' = pool P)
   end) /\
  pool (clear isActive destroyObj P) = [] /\
  activeCount isActive (clear isActive destroyObj P) = 0%nat.
Proof.
  split; [|split; reflexivity].
  unfold get. destruct (List.find _ (pool P)) as [r0|] eqn:Hf.
  - destruct (find_first _ _ _ Hf) as (l1 & l2 & Hp & Hl1 & Hr0).
    unfold obj_inactive in Hr0.
    destruct (heap P !! r0) as [o|] eqn:Ho; [|discriminate].
    simpl. split.
    + intros r' Hne. apply list_lookup_insert_ne. congruence.
    + split; [reflexivity|]. split; [reflexivity|].
      split; [eauto|].
      exists o. split; [exact Ho|]. split; [now apply negb_true_iff|].
      apply list_lookup_insert_eq. eapply lookup_lt_Some; exact Ho.
  - simpl. split.
    + intros r' Hne. now apply lookup_app_singleton_ne.
    + split; [reflexivity|]. split; [now apply lookup_ge_None_2|].
      split; [reflexivity|]. split.
      * intros H. apply Nat.ltb_lt in H. now rewrite H.
      * intros H. apply Nat.ltb_ge in H. now rewrite H.
Qed.
End ObjectPoolProofs.

(** C10 (failing input): the type 'constructor' passes the guard,
    because [Poop.typeConfigs] inherits a [constructor] property from
    [Object.prototype]; the constructor and [reset] keep it as the type and
    store an undefined point value. *)
Theorem poop_guard_inherited_key :
  poopConstruct (JsStr "constructor") = Some (JsStr "constructor", None) /\
  poopReset true (JsStr "constructor") (JsStr "regular", Some 10%Z)
    = Some (JsStr "constructor", None) /\
  valid_type (JsStr "constructor") = false.
Proof. repeat split. Qed.

(** Where the guard works: for a value whose key is not an inherited
    member of [Poop.typeConfigs], the constructor does not throw and
    stores a type that has its own entry in the table, with that entry's
    points ([REGULAR] replaces a value without an entry). *)
Lemma poop_guard_own_entry (v : JsValue) :
  typeConfigs_get (property_key v) <> InheritedMember ->
  exists t, typeConfigs_get (property_key (guard_type v)) = OwnConfig t /\
            poopConstruct v = Some (guard_type v, Some (points (typeConfigs t))).
Proof.
  intros Hinh. unfold poopConstruct, type_and_points, guard_type.
  destruct (truthy v); simpl;
    [|exists REGULAR; split; reflexivity].
  destruct (typeConfigs_get (property_key v)) as [t| |] eqn:E; simpl.
  - rewrite E. exists t. split; reflexivity.
  - congruence.
  - exists REGULAR. split; reflexivity.
Qed.

(* ------------------------------------------------------------------ *)
(** ** Further properties of the score system *)

Definition score_inv (s : ScoreSystem) : Prop :=
  (consecutiveMisses s <= misses s)%N /\
  (exists k, score s = 10 * k)%N /\
  (1 <= maxMisses s)%N.

Lemma applyScoreOp_inv (s : ScoreSystem) (op : ScoreOp) :
  score_inv s -> score_inv (applyScoreOp s op).
Proof.
  destruct s as [sc mi cm mm]; unfold score_inv; simpl.
  intros (Hc & [k Hk] & Hm).
  destruct op as [t| | |n]; simpl.
  - destruct t; simpl.
    + split; [lia|]. split; [exists (k + 1)%N; lia|lia].
    + split; [lia|]. split; [exists (k + 5)%N; lia|lia].
    + split; [lia|]. split; [exists k; lia|lia].
  - unfold addMiss; simpl. destruct (mm <=? cm + 1)%N; simpl;
      (split; [lia|]; split; [exists k; lia|lia]).
  - split; [lia|]. split; [exists 0%N; lia|lia].
  - split; [lia|]. split; [exists k; lia|lia].
Qed.

(** Over any sequence of [addScore], [addMiss], [reset] and
    [setMaxMisses] calls from a fresh score system, the consecutive-miss
    counter never exceeds the total miss counter, the score stays a
    multiple of 10, and the miss limit stays at least 1. *)
Theorem score_system_invariant (ops : list ScoreOp) :
  let s := runScoreOps ScoreSystem_init ops in
  (consecutiveMisses s <= misses s)%N /\
  (exists k, score s = 10 * k)%N /\
  (1 <= maxMisses s)%N.
Proof.
  cbn zeta. unfold runScoreOps.
  assert (H : score_inv ScoreSystem_init).
  { unfold score_inv; simpl. repeat split; try lia. exists 0%N. lia. }
  revert H. generalize ScoreSystem_init.
  induction ops as [|op ops IH]; intros s H; simpl.
  - exact H.
  - apply IH. now apply applyScoreOp_inv.
Qed.

(** The game-over callbacks fire exactly when the score system's own
    predicates say the game is over: [addMiss] returns [true] and fires
    them precisely when [shouldGameOverOnMiss] holds afterwards, and
    [addScore] fires them precisely for a type on which
    [shouldGameOverOnCatch] holds. *)
Theorem game_over_signals_agree (t : PoopType) (s : ScoreSystem) :
  (let '(go, s', evs) := addMiss s in
   go = shouldGameOverOnMiss s' /\ (In GameOver evs <-> go = true)) /\
  (let '(_, _, evs) := addScore t s in
   In GameOver evs <-> shouldGameOverOnCatch t = true).
Proof.
  split.
  - unfold addMiss, shouldGameOverOnMiss; simpl.
    destruct (maxMisses s <=? consecutiveMisses s + 1)%N eqn:E; simpl.
    + split; [now rewrite E|]. split; intros _; [reflexivity|].
      right. left. reflexivity.
    + split; [now rewrite E|]. split; intros H; [|discriminate].
      destruct H as [H|[]]; discriminate.
  - destruct t; simpl; split; intros H; try reflexivity; try discriminate;
      try (destruct H as [H|[]]; discriminate); left; reflexivity.
Qed.

(** A run of [k] misses in a row after [setMaxMisses(n)]: the [i]-th
    call (from 1) returns [true] exactly when the consecutive counter it
    reaches, the starting one plus [i], is at least [Math.max(1, n)]. *)
Theorem addMisses_after_setMaxMisses (n : N) (k : nat) (s : ScoreSystem) :
  fst (addMisses k (setMaxMisses n s)) =
  map (fun i => (N.max 1 n <=? consecutiveMisses s + N.of_nat i)%N) (seq 1 k).
Proof.
  unfold setMaxMisses. simpl.
  generalize (consecutiveMisses s) (score s) (misses s). clear s.
  induction k as [|k IH]; intros c sc mi; [reflexivity|].
  simpl. unfold addMiss. simpl.
  destruct (N.max 1 n <=? c + 1)%N eqn:E; simpl.
  - specialize (IH (c + 1)%N sc (mi + 1)%N).
    destruct (addMisses k _) as [gos s2] eqn:Ek. simpl in *.
    f_equal; [rewrite <- E; f_equal; lia|].
    rewrite IH, <- (seq_shift k 1), map_map. apply map_ext. intros i. f_equal. lia.
  - specialize (IH (c + 1)%N sc (mi + 1)%N).
    destruct (addMisses k _) as [gos s2] eqn:Ek. simpl in *.
    f_equal; [rewrite <- E; f_equal; lia|].
    rewrite IH, <- (seq_shift k 1), map_map. apply map_ext. intros i. f_equal. lia.
Qed.

Open Scope Q_scope.

Lemma Qle_bool_false (x y : Q) : Qle_bool x y = false -> y < x.
Proof.
  intros H. apply Qnot_le_lt. intros H'. apply Qle_bool_iff in H'. congruence.
Qed.

Lemma inject_N_nonneg (n : N) : 0 <= inject_Z (Z.of_N n).
Proof. change 0 with (inject_Z 0). rewrite <- Zle_Qle. lia. Qed.

(** The accuracy reported by [getStats()] always lies between 0 and 100,
    whatever the counters are, and is 100 while no miss has been
    counted. *)
Theorem getStats_accuracy_bounds (s : ScoreSystem) :
  0 <= getStats_accuracy s <= 100 /\
  (misses s = 0%N -> getStats_accuracy s == 100).
Proof.
  unfold getStats_accuracy, Math_round.
  set (S := inject_Z (Z.of_N (score s))).
  set (M := inject_Z (Z.of_N (misses s))).
  assert (HS : 0 <= S) by apply inject_N_nonneg.
  assert (HM : 0 <= M) by apply inject_N_nonneg.
  assert (HS10 : 0 <= S / 10) by (apply Qle_shift_div_l; [reflexivity|]; lra).
  set (T := S / 10 + M).
  assert (Hacc : 0 <= (if Qltb 0 T then (T - M) / T * 100 else 100) <= 100).
  { destruct (Qltb 0 T) eqn:E; [|lra].
    apply Qltb_true in E.
    assert (0 <= (T - M) / T).
    { apply Qle_shift_div_l; [exact E|]. unfold T. lra. }
    assert ((T - M) / T <= 1).
    { apply Qle_shift_div_r; [exact E|]. lra. }
    lra. }
  set (acc := if Qltb 0 T then (T - M) / T * 100 else 100) in *.
  assert (Hz : (0 <= Qfloor (acc * 100 + (1 # 2)) <= 10000)%Z).
  { split.
    - change 0%Z with (Qfloor 0). apply Qfloor_resp_le. lra.
    - change 10000%Z with (Qfloor (10000 + (1 # 2))). apply Qfloor_resp_le. lra. }
  split.
  - destruct Hz as [Hz1 Hz2].
    rewrite Zle_Qle in Hz1, Hz2.
    change (inject_Z 0) with 0 in Hz1. change (inject_Z 10000) with 10000 in Hz2.
    set (z := inject_Z (Qfloor (acc * 100 + (1 # 2)))) in *.
    split.
    + apply Qle_shift_div_l; [reflexivity|]. lra.
    + apply Qle_shift_div_r; [reflexivity|]. lra.
  - intros H0.
    assert (HM0 : M = 0) by (unfold M; rewrite H0; reflexivity).
    assert (Hacc100 : acc == 100).
    { unfold acc. destruct (Qltb 0 T) eqn:E; [|reflexivity].
      apply Qltb_true in E. rewrite HM0.
      field_simplify; [reflexivity|]. unfold T in *. rewrite HM0 in E. lra. }
    assert (Hf : Qfloor (acc * 100 + (1 # 2)) = 10000%Z).
    { rewrite (Qfloor_comp (acc * 100 + (1 # 2)) (10000 + (1 # 2))); [reflexivity|].
      rewrite Hacc100. reflexivity. }
    rewrite Hf. reflexivity.
Qed.

(** [getScoreMultiplier] is 1, 1.5 or 2, never decreases as the number of
    consecutive catches grows, and reaches 2 from 10 catches on. *)
Theorem getScoreMultiplier_monotone (a b : Q) :
  a <= b ->
  1 <= getScoreMultiplier a <= 2 /\
  getScoreMultiplier a <= getScoreMultiplier b /\
  (10 <= a -> getScoreMultiplier a == 2).
Proof.
  intros Hab. unfold getScoreMultiplier.
  destruct (Qle_bool 10 a) eqn:A10; destruct (Qle_bool 5 a) eqn:A5;
  destruct (Qle_bool 10 b) eqn:B10; destruct (Qle_bool 5 b) eqn:B5;
  repeat match goal with
  | H : Qle_bool _ _ = true |- _ => apply Qle_bool_iff in H
  | H : Qle_bool _ _ = false |- _ => apply Qle_bool_false in H
  end;
  (split; [lra|]); (split; [lra|]); intros; lra.
Qed.

Lemma getScoreMultiplier_monotone_witness :
  (6 <= 12)%Q /\ (getScoreMultiplier 6 <= getScoreMultiplier 12)%Q.
Proof.
  assert (H : (6 <= 12)%Q) by (vm_compute; discriminate).
  split; [exact H|].
  exact (proj1 (proj2 (getScoreMultiplier_monotone 6 12 H))).
Defined.

Close Scope Q_scope.

(* ------------------------------------------------------------------ *)
(** ** Further properties of the state manager *)

Definition manager_inv (m : GameStateManager) : Prop :=
  isTransitioning m = false /\
  (currentState m = START -> gameTime m = 0%Z /\ startTime m = 0%Z) /\
  (currentState m = PLAY -> gameTime m = 0%Z).

Lemma transitionTo_inv (st : GameState) (force : bool) (now : Z)
    (m : GameStateManager) :
  manager_inv m -> manager_inv (fst (transitionTo st force now m)).
Proof.
  destruct m as [cur prev tr gt stt]; unfold manager_inv, transitionTo; simpl.
  intros (Htr & Hs & Hp). subst tr.
  destruct (GameState_eqb cur st && negb force); simpl; [auto|].
  destruct st; simpl; [repeat split; discriminate + auto|repeat split; discriminate + auto|].
  destruct (0 <? stt)%Z; simpl; repeat split; discriminate.
Qed.

(** Over any sequence of [startGame], [endGame], [resetGame] and
    [transitionTo] calls from a fresh manager, no transition is left in
    progress, the start screen always has both clocks at 0, and a running
    game keeps its frozen [gameTime] at 0 (its time is read from
    [startTime]). *)
Theorem manager_invariant (ops : list ManagerOp) :
  let m := runManagerOps GameStateManager_init ops in
  isTransitioning m = false /\
  (currentState m = START -> gameTime m = 0%Z /\ startTime m = 0%Z) /\
  (currentState m = PLAY -> gameTime m = 0%Z).
Proof.
  cbn zeta. unfold runManagerOps.
  assert (H : manager_inv GameStateManager_init).
  { unfold manager_inv; simpl. repeat split; discriminate + auto. }
  revert H. generalize GameStateManager_init.
  induction ops as [|op ops IH]; intros m H; simpl; [exact H|].
  apply IH. destruct op as [now|now|now|st force now]; simpl.
  - now apply transitionTo_inv.
  - now apply transitionTo_inv.
  - unfold resetGame.
    destruct (transitionTo START true now _) as [m2 cbs] eqn:E. simpl.
    change m2 with (fst (m2, cbs)). rewrite <- E.
    apply transitionTo_inv. destruct H as (H1 & _ & _).
    unfold manager_inv; simpl. repeat split; auto.
  - now apply transitionTo_inv.
Qed.

(** [resetGame()] outside a transition: the reset callbacks run first,
    then the exit callbacks of the current state and the enter and change
    callbacks of [START]; the manager ends on the start screen with both
    clocks at 0, also when it was already there. *)
Theorem resetGame_result (now : Z) (m : GameStateManager) :
  isTransitioning m = false ->
  resetGame now m =
  (mkGSM START (currentState m) false 0 0,
   [RunReset; RunState (RunExit (currentState m));
    RunState (RunEnter START); RunState (RunChange START)]).
Proof.
  intros H. destruct m as [cur prev tr gt stt]; simpl in H; subst tr.
  unfold resetGame, transitionTo; simpl.
  rewrite andb_false_r. reflexivity.
Qed.

Lemma resetGame_result_witness :
  isTransitioning (mkGSM GAME_OVER PLAY false 4200 1000) = false /\
  resetGame 9000 (mkGSM GAME_OVER PLAY false 4200 1000) =
  (mkGSM START GAME_OVER false 0 0,
   [RunReset; RunState (RunExit GAME_OVER);
    RunState (RunEnter START); RunState (RunChange START)]).
Proof.
  split; [reflexivity|].
  exact (resetGame_result 9000 (mkGSM GAME_OVER PLAY false 4200 1000) eq_refl).
Defined.

(** The game clock: after [startGame()] at a time [t0 > 0] from a state
    other than [PLAY], [getGameTime()] at [t] is [t - t0]; after
    [endGame()] at [t1] it is frozen at [t1 - t0], whatever the time it is
    read at. *)
Theorem game_clock_start_end (m : GameStateManager) (t0 t1 t : Z) :
  currentState m <> PLAY -> isTransitioning m = false -> (0 < t0)%Z ->
  let m1 := fst (startGame t0 m) in
  let m2 := fst (endGame t1 m1) in
  currentState m1 = PLAY /\ getGameTime t m1 = (t - t0)%Z /\
  currentState m2 = GAME_OVER /\ getGameTime t m2 = (t1 - t0)%Z.
Proof.
  intros Hcur Htr Ht0. destruct m as [cur prev tr gt stt]; simpl in *; subst tr.
  assert (E : GameState_eqb cur PLAY = false) by (destruct cur; [reflexivity|congruence|reflexivity]).
  unfold startGame, endGame, transitionTo, getGameTime; simpl.
  rewrite E; simpl.
  assert (Hb : (0 <? t0)%Z = true) by (apply Z.ltb_lt; exact Ht0).
  rewrite !Hb. simpl. repeat split.
Qed.

Lemma game_clock_start_end_witness :
  START <> PLAY /\ isTransitioning GameStateManager_init = false /\ (0 < 1000)%Z /\
  getGameTime 99999 (fst (endGame 61000 (fst (startGame 1000 GameStateManager_init))))
    = 60000%Z.
Proof.
  split; [discriminate|]. split; [reflexivity|]. split; [lia|].
  destruct (game_clock_start_end GameStateManager_init 1000 61000 99999
              ltac:(discriminate) eq_refl ltac:(lia)) as (_ & _ & _ & H).
  exact H.
Defined.

(* ------------------------------------------------------------------ *)
(** ** The engine's catch and miss handling *)

(** A catch during play: catching a [BOOB] projectile leaves the score
    untouched and ends the game with a single run of the exit, enter and
    change callbacks, although [endGame()] is called twice (by the
    game-over callback of the score system and by the handler itself);
    catching any other type never changes the game state. *)
Theorem handlePoopCatch_during_play (t : PoopType) (now : Z)
    (s : ScoreSystem) (m : GameStateManager) :
  currentState m = PLAY -> isTransitioning m = false ->
  handlePoopCatch t now s m =
  match t with
  | BOOB =>
      (s, fst (endGame now m), [RunExit PLAY; RunEnter GAME_OVER; RunChange GAME_OVER])
  | _ => (snd (fst (addScore t s)), m, [])
  end /\
  currentState (fst (endGame now m)) = GAME_OVER.
Proof.
  intros Hc Htr. destruct m as [cur prev tr gt stt]; simpl in *; subst cur tr.
  split; [|unfold endGame, transitionTo; simpl; destruct (0 <? stt)%Z; reflexivity].
  destruct t; unfold handlePoopCatch; simpl; try reflexivity.
  unfold endGame, transitionTo; simpl.
  destruct (0 <? stt)%Z; reflexivity.
Qed.

Lemma handlePoopCatch_during_play_witness :
  handlePoopCatch BOOB 5000 (mkScoreSystem 120 1 0 2) (mkGSM PLAY START false 0 1000)
  = (mkScoreSystem 120 1 0 2, mkGSM GAME_OVER PLAY false 4000 1000,
     [RunExit PLAY; RunEnter GAME_OVER; RunChange GAME_OVER]).
Proof.
  destruct (handlePoopCatch_during_play BOOB 5000 (mkScoreSystem 120 1 0 2)
              (mkGSM PLAY START false 0 1000) eq_refl eq_refl) as [H _].
  exact H.
Defined.

(** A projectile missed during play: a [REGULAR] or [FANCY] miss is
    counted and, when the consecutive misses reach the limit, ends the
    game with a single run of the transition callbacks (again although
    [endGame()] is called twice); a missed [BOOB] changes neither the score
    system nor the game state. *)
Theorem handleMissedPoop_during_play (t : PoopType) (now : Z)
    (s : ScoreSystem) (m : GameStateManager) :
  currentState m = PLAY -> isTransitioning m = false ->
  handleMissedPoop t now s m =
  match t with
  | BOOB => Some (s, m, [])
  | _ =>
      let s1 := snd (fst (addMiss s)) in
      if (maxMisses s <=? consecutiveMisses s + 1)%N
      then Some (s1, fst (endGame now m),
                 [RunExit PLAY; RunEnter GAME_OVER; RunChange GAME_OVER])
      else Some (s1, m, [])
  end.
Proof.
  intros Hc Htr. destruct m as [cur prev tr gt stt]; simpl in *; subst cur tr.
  destruct t; unfold handleMissedPoop, checkMissedPoop; simpl; try reflexivity;
    unfold addMiss; simpl;
    destruct (maxMisses s <=? consecutiveMisses s + 1)%N; simpl; try reflexivity;
    unfold endGame, transitionTo; simpl;
    destruct (0 <? stt)%Z; reflexivity.
Qed.

Lemma handleMissedPoop_during_play_witness :
  handleMissedPoop REGULAR 7000 (mkScoreSystem 30 1 1 2) (mkGSM PLAY START false 0 1000)
  = Some (mkScoreSystem 30 2 2 2, mkGSM GAME_OVER PLAY false 6000 1000,
          [RunExit PLAY; RunEnter GAME_OVER; RunChange GAME_OVER]).
Proof.
  exact (handleMissedPoop_during_play REGULAR 7000 (mkScoreSystem 30 1 1 2)
           (mkGSM PLAY START false 0 1000) eq_refl eq_refl).
Defined.

(* ------------------------------------------------------------------ *)
(** ** Further properties of the PerformanceManager *)

Open Scope Q_scope.

Ltac qltb_hyps :=
  repeat match goal with
  | H : Qltb _ _ = true |- _ => apply Qltb_true in H
  | H : Qltb _ _ = false |- _ => apply Qltb_false in H
  | H : Qle_bool _ _ = true |- _ => apply Qle_bool_iff in H
  | H : Qle_bool _ _ = false |- _ => apply Qle_bool_false in H
  end.

Ltac qminmax_cases :=
  repeat match goal with
  | |- context [Qmin ?a ?b] => destruct (Qmin_cases a b) as [[-> ?]|[-> ?]]
  | |- context [Qmax ?a ?b] => destruct (Qmax_cases a b) as [[-> ?]|[-> ?]]
  end.

Ltac split_ifs :=
  repeat match goal with
  | |- context [if Qltb ?a ?b then _ else _] => destruct (Qltb a b) eqn:?
  | |- context [if ?c then _ else _] =>
      match c with
      | true => fail 1
      | false => fail 1
      | _ => destruct c eqn:?
      end
  end.

(** A downgrade step never raises any setting, never takes one below its
    floor (5 particles, pixel ratio 0.5, texture 0.5, 10 entities, or the
    current value when it is already lower), never touches the shadow flag
    or the target frame rate, and reports a change exactly when some
    dimension is above its floor. *)
Theorem reduceQuality_bounds (q : QualitySettings) :
  let q' := fst (reduceQuality q) in
  Qmin 5 (particleCount q) <= particleCount q' <= particleCount q /\
  Qmin (1#2) (pixelRatio q) <= pixelRatio q' <= pixelRatio q /\
  (antialiasing q' = true -> antialiasing q = true) /\
  Qmin (1#2) (textureQuality q) <= textureQuality q' <= textureQuality q /\
  Qmin 10 (maxEntities q) <= maxEntities q' <= maxEntities q /\
  shadowQuality q' = shadowQuality q /\ targetFPS q' = targetFPS q /\
  snd (reduceQuality q) = existsb (reducible q) all_dims.
Proof.
  destruct q as [pr pc sh aa tq me fps].
  unfold reduceQuality, reducible, all_dims; simpl.
  split_ifs; simpl in *; qltb_hyps; qminmax_cases;
    repeat split; try lra; try (intros; assumption); try discriminate.
Qed.

(** An upgrade step never lowers any setting, never takes one beyond the
    tier's initial setting (or the current value when it is already
    higher), turns antialiasing on only when the tier has it, never
    touches the shadow flag or the target frame rate, and reports a change
    exactly when [canIncreaseQuality()] holds. *)
Theorem increaseQuality_bounds (init q : QualitySettings) :
  let q' := fst (increaseQuality init q) in
  particleCount q <= particleCount q' <= Qmax (particleCount q) (particleCount init) /\
  pixelRatio q <= pixelRatio q' <= Qmax (pixelRatio q) (pixelRatio init) /\
  (antialiasing q = true -> antialiasing q' = true) /\
  (antialiasing q' = true -> antialiasing q = true \/ antialiasing init = true) /\
  textureQuality q <= textureQuality q' <= Qmax (textureQuality q) (textureQuality init) /\
  maxEntities q <= maxEntities q' <= Qmax (maxEntities q) (maxEntities init) /\
  shadowQuality q' = shadowQuality q /\ targetFPS q' = targetFPS q /\
  snd (increaseQuality init q) = canIncreaseQuality init q.
Proof.
  destruct q as [pr pc sh aa tq me fps].
  destruct init as [ipr ipc ish iaa itq ime ifps].
  unfold increaseQuality, canIncreaseQuality; simpl.
  split_ifs; simpl in *; qltb_hyps; qminmax_cases;
    repeat split; try lra; try (intros; assumption); try discriminate;
    try (intros; right; assumption); try (intros; left; assumption);
    try (intros; reflexivity);
    (intros _; destruct aa; [left; reflexivity|right];
     destruct iaa; [reflexivity|discriminate]).
Qed.

Lemma checkPerformanceAndAdjust_history (init : QualitySettings) (now : Q)
    (p : PerfState) :
  frameTimeHistory (checkPerformanceAndAdjust init now p) = frameTimeHistory p.
Proof.
  unfold checkPerformanceAndAdjust.
  destruct (Qltb _ _); [reflexivity|].
  destruct (Nat.ltb _ _); [reflexivity|].
  destruct (Qltb _ _); [reflexivity|].
  destruct (_ && _); reflexivity.
Qed.

Lemma tl_skipn {A} (k : nat) (l : list A) : tl (skipn k l) = skipn (S k) l.
Proof.
  revert l. induction k as [|k IH]; intros [|x l]; simpl; try reflexivity.
  apply IH.
Qed.

Lemma pushFrameTime_window (a : list Q) (f : Q) :
  pushFrameTime (skipn (length a - 60) a) f =
  skipn (length (a ++ [f]) - 60) (a ++ [f]).
Proof.
  unfold pushFrameTime, maxHistoryLength.
  rewrite length_app. simpl.
  assert (Happ : skipn (length a - 60) a ++ [f] = skipn (length a - 60) (a ++ [f])).
  { rewrite skipn_app. f_equal. replace (length a - 60 - length a)%nat with 0%nat by lia.
    reflexivity. }
  rewrite Happ, length_skipn, length_app. simpl.
  match goal with |- context [Nat.ltb 60 ?x] => destruct (Nat.ltb 60 x) eqn:E end.
  - apply Nat.ltb_lt in E. rewrite tl_skipn. f_equal. lia.
  - apply Nat.ltb_ge in E. f_equal. lia.
Qed.

Lemma runUpdates_window (init : QualitySettings) (calls : list (Q * Q)) :
  forall p a, frameTimeHistory p = skipn (length a - 60) a ->
  frameTimeHistory (runUpdates init p calls) =
  skipn (length (a ++ map snd calls) - 60) (a ++ map snd calls).
Proof.
  unfold runUpdates.
  induction calls as [|c cs IH]; intros p a Ha; simpl.
  - rewrite app_nil_r. exact Ha.
  - rewrite (IH _ (a ++ [snd c])).
    + rewrite <- app_assoc. reflexivity.
    + unfold updateMetrics. rewrite checkPerformanceAndAdjust_history. simpl.
      rewrite Ha. apply pushFrameTime_window.
Qed.

(** The frame-time history the controller averages: after any sequence
    of [updateMetrics] calls, it holds the last 60 frame times fed in (all
    of them while there are at most 60), oldest first, whatever the
    controller decided in between. *)
Theorem updateMetrics_history (init : QualitySettings) (p : PerfState)
    (calls : list (Q * Q)) :
  (length (frameTimeHistory p) <= 60)%nat ->
  let all := frameTimeHistory p ++ map snd calls in
  frameTimeHistory (runUpdates init p calls) = skipn (length all - 60) all.
Proof.
  intros Hlen. cbn zeta. apply runUpdates_window.
  replace (length (frameTimeHistory p) - 60)%nat with 0%nat by lia. reflexivity.
Qed.

Lemma updateMetrics_history_witness :
  (length (frameTimeHistory (mkPerf desktop_init (repeat (16:Q) 59) 0)) <= 60)%nat /\
  frameTimeHistory (runUpdates desktop_init (mkPerf desktop_init (repeat (16:Q) 59) 0)
                      [(100, 20); (120, 40)])
  = repeat (16:Q) 58 ++ [20; 40].
Proof.
  split; [simpl; lia|].
  rewrite (updateMetrics_history desktop_init (mkPerf desktop_init (repeat (16:Q) 59) 0)
             [(100, 20); (120, 40)] ltac:(simpl; lia)).
  reflexivity.
Defined.

(** The cooldown: a call to [updateMetrics] either leaves the quality
    settings and the time of the last adjustment as they were, or records
    its own time as the last adjustment; in the latter case no call made
    less than 5000 ms later changes the quality settings again. *)
Theorem updateMetrics_cooldown (init : QualitySettings) (now f : Q)
    (p : PerfState) :
  let p1 := updateMetrics init now f p in
  (qualitySettings p1 = qualitySettings p /\
   lastQualityAdjustment p1 = lastQualityAdjustment p) \/
  (lastQualityAdjustment p1 = now /\
   forall calls, Forall (fun c => fst c - now < 5000) calls ->
   qualitySettings (runUpdates init p1 calls) = qualitySettings p1 /\
   lastQualityAdjustment (runUpdates init p1 calls) = now).
Proof.
  cbn zeta.
  assert (Hblock : forall p2, lastQualityAdjustment p2 = now ->
            forall calls, Forall (fun c => fst c - now < 5000) calls ->
            qualitySettings (runUpdates init p2 calls) = qualitySettings p2 /\
            lastQualityAdjustment (runUpdates init p2 calls) = now).
  { intros p2 Hl calls Hall. unfold runUpdates.
    revert p2 Hl. induction Hall as [|c cs Hc Hcs IH]; intros p2 Hl; simpl.
    - split; [reflexivity|exact Hl].
    - destruct (IH (updateMetrics init (fst c) (snd c) p2)) as [IH1 IH2].
      + unfold updateMetrics, checkPerformanceAndAdjust; simpl.
        rewrite Hl. assert (Hq : Qltb (fst c - now) qualityAdjustmentCooldown = true)
          by (apply Qltb_true; exact Hc).
        rewrite Hq. reflexivity.
      + rewrite IH1, IH2. split; [|reflexivity].
        unfold updateMetrics, checkPerformanceAndAdjust; simpl.
        rewrite Hl. assert (Hq : Qltb (fst c - now) qualityAdjustmentCooldown = true)
          by (apply Qltb_true; exact Hc).
        rewrite Hq. reflexivity. }
  unfold updateMetrics.
  set (p0 := mkPerf (qualitySettings p) (pushFrameTime (frameTimeHistory p) f)
               (lastQualityAdjustment p)).
  assert (Hcase : checkPerformanceAndAdjust init now p0 = p0 \/
                  lastQualityAdjustment (checkPerformanceAndAdjust init now p0) = now).
  { unfold checkPerformanceAndAdjust.
    destruct (Qltb _ _); [left; reflexivity|].
    destruct (Nat.ltb _ _); [left; reflexivity|].
    destruct (Qltb _ _); [right; reflexivity|].
    destruct (_ && _); [right|left]; reflexivity. }
  destruct Hcase as [E|E].
  - left. rewrite E. split; reflexivity.
  - right. split; [exact E|]. apply Hblock. exact E.
Qed.

(** The capability classification of [detectDevice()]: a desktop is
    always [HIGH]; a mobile device is [LOW] exactly when its memory is at
    most 2, its core count at most 2, or its screen under 800000 pixels,
    and [HIGH] exactly when its memory and core count are both at least 4
    and its screen has at least 800000 pixels.  The memory is
    [navigator.deviceMemory] when set, else the estimate from the screen;
    the core count defaults to 4. *)
Theorem detectCapability_rules (isMobile : bool) (dm cc : option Q) (w h : Q) :
  let memory := num_or dm (estimateMemory w h) in
  let cores := num_or cc 4 in
  (isMobile = false -> detectCapability isMobile dm cc w h = HIGH) /\
  (isMobile = true ->
   (detectCapability isMobile dm cc w h = LOW <->
    memory <= 2 \/ cores <= 2 \/ w * h < 800000) /\
   (detectCapability isMobile dm cc w h = HIGH <->
    4 <= memory /\ 4 <= cores /\ 800000 <= w * h)).
Proof.
  cbn zeta. unfold detectCapability, isLowEndDevice, determineCapability.
  set (memory := num_or dm (estimateMemory w h)).
  set (cores := num_or cc 4).
  split; [intros ->; reflexivity|]. intros ->. simpl.
  destruct (Qle_bool memory 2) eqn:E1; destruct (Qle_bool cores 2) eqn:E2;
  destruct (Qltb (w * h) 800000) eqn:E3;
  destruct (Qle_bool 4 memory) eqn:E4; destruct (Qle_bool 4 cores) eqn:E5;
  simpl; qltb_hyps;
  (split; split; intros H;
   [ try lra; try (exfalso; discriminate H); try (left; lra) |
     try reflexivity; try (exfalso; lra); destruct H as [H|[H|H]]; lra |
     try discriminate H; try (repeat split; lra) |
     try reflexivity; try (exfalso; lra); destruct H as [H1 [H2 H3]]; lra ]).
Qed.

(** Without [navigator.deviceMemory], the memory estimate makes every
    mobile device whose screen has at most 2000000 pixels a [LOW] device,
    whatever its core count. *)
Theorem mobile_without_deviceMemory_low (cc : option Q) (w h : Q) :
  w * h <= 2000000 -> detectCapability true None cc w h = LOW.
Proof.
  intros Hpx. unfold detectCapability, isLowEndDevice, determineCapability,
    estimateMemory, num_or; simpl.
  assert (E : Qltb 2000000 (w * h) = false) by (apply Qltb_false; exact Hpx).
  rewrite E. destruct (Qltb 1000000 (w * h)); reflexivity.
Qed.

Lemma mobile_without_deviceMemory_low_witness :
  1080 * 1800 <= 2000000 /\ detectCapability true None (Some 8) 1080 1800 = LOW.
Proof.
  split; [vm_compute; discriminate|].
  apply mobile_without_deviceMemory_low. vm_compute. discriminate.
Defined.

(** The initial settings of the three tiers are ordered: for any device
    pixel ratio, [LOW] is at most [MEDIUM] and [MEDIUM] at most [HIGH] in
    every dimension, the pixel ratio being capped at 1 and 1.5 on the two
    lower tiers. *)
Theorem initial_settings_by_tier (dpr : Q) :
  let l := getInitialQualitySettings LOW dpr in
  let m := getInitialQualitySettings MEDIUM dpr in
  let h := getInitialQualitySettings HIGH dpr in
  pixelRatio l <= pixelRatio m <= pixelRatio h /\
  pixelRatio l <= 1 /\ pixelRatio m <= 3#2 /\
  particleCount l < particleCount m < particleCount h /\
  textureQuality l <= textureQuality m <= textureQuality h /\
  maxEntities l < maxEntities m < maxEntities h /\
  targetFPS l < targetFPS m < targetFPS h /\
  (antialiasing l = true -> antialiasing m = true) /\
  (antialiasing m = true -> antialiasing h = true) /\
  (shadowQuality m = true -> shadowQuality h = true).
Proof.
  cbn zeta. simpl. qminmax_cases.
  all: repeat split; try lra; intros; reflexivity.
Qed.

Close Scope Q_scope.

(* ------------------------------------------------------------------ *)
(** ** Further properties of the object pool *)

Lemma NoDup_snoc {A} (l : list A) (x : A) :
  List.NoDup l -> ~ In x l -> List.NoDup (l ++ [x]).
Proof.
  induction l as [|y l IH]; intros Hnd Hx; simpl.
  - constructor; [intros []|constructor].
  - inversion Hnd as [|? ? Hy Hl]; subst. constructor.
    + intros Hin. apply in_app_or in Hin. destruct Hin as [Hin|[Hin|[]]].
      * contradiction.
      * subst. apply Hx. left. reflexivity.
    + apply IH; [exact Hl|]. intros Hin. apply Hx. right. exact Hin.
Qed.

Section ObjectPoolMoreProofs.
Context {T Args : Type}.
Variable isActive : T -> bool.
Variable reset : Args -> T -> T.
Variable destroyObj : T -> T.
Variable createFn : Args -> T.

Definition pool_wf (P : ObjectPool T) : Prop :=
  List.NoDup (pool P) /\ Forall (fun r => (r < length (heap P))%nat) (pool P).

Lemma get_wf (args : Args) (P : ObjectPool T) :
  pool_wf P ->
  pool_wf (snd (get isActive reset createFn args P)) /\
  (length (pool (snd (get isActive reset createFn args P)))
     <= Nat.max (length (pool P)) (maxSize P))%nat.
Proof.
  intros [Hnd Hall]. unfold get.
  destruct (List.find _ _) as [r|] eqn:F.
  - destruct (heap P !! r) as [o|] eqn:Hr; simpl.
    + split; [|lia]. split; [exact Hnd|].
      simpl. eapply Forall_impl; [exact Hall|]. intros a Ha. cbv beta in Ha.
      rewrite length_insert. exact Ha.
    + split; [split; assumption|lia].
  - simpl. destruct (Nat.ltb (length (pool P)) (maxSize P)) eqn:E.
    + apply Nat.ltb_lt in E. split.
      * split.
        -- apply NoDup_snoc; [exact Hnd|]. intros Hin.
           rewrite Forall_forall in Hall.
           specialize (Hall _ (proj2 (list_elem_of_In _ _) Hin)). lia.
        -- simpl. apply Forall_app. split.
           ++ eapply Forall_impl; [exact Hall|]. intros a Ha. cbv beta in Ha.
              rewrite length_app. simpl. lia.
           ++ constructor; [rewrite length_app; simpl; lia|constructor].
      * rewrite length_app. simpl. lia.
    + split; [|lia]. split; [exact Hnd|].
      simpl. eapply Forall_impl; [exact Hall|]. intros a Ha. cbv beta in Ha.
      rewrite length_app. simpl. lia.
Qed.

(** From the constructor on, whatever sequence of [get] calls is made,
    the pool array holds distinct references to objects that exist, and
    never more than [initialSize] or [maxSize] of them, whichever is
    larger. *)
Theorem pool_refs_wf (noArgs : Args) (initialSize max_size : nat) (calls : list Args) :
  let P := runGets isActive reset createFn
             (ObjectPool_new destroyObj createFn noArgs initialSize max_size) calls in
  List.NoDup (pool P) /\ Forall (fun r => (r < length (heap P))%nat) (pool P) /\
  (length (pool P) <= Nat.max initialSize max_size)%nat.
Proof.
  cbn zeta. unfold runGets.
  assert (H0 : pool_wf (ObjectPool_new destroyObj createFn noArgs initialSize max_size) /\
               (length (pool (ObjectPool_new destroyObj createFn noArgs initialSize max_size))
                  <= Nat.max initialSize max_size)%nat).
  { unfold ObjectPool_new, pool_wf; simpl. rewrite length_seq, repeat_length.
    split; [split|lia].
    - apply seq_NoDup.
    - apply Forall_forall. intros r Hr. apply list_elem_of_In, in_seq in Hr. lia. }
  assert (Hmax : maxSize (ObjectPool_new destroyObj createFn noArgs initialSize max_size)
                 = max_size) by reflexivity.
  revert H0 Hmax.
  generalize (ObjectPool_new destroyObj createFn noArgs initialSize max_size) as P.
  induction calls as [|a calls IH]; intros P [[Hnd Hall] Hlen] Hmax; simpl.
  - repeat split; assumption.
  - apply IH.
    + destruct (get_wf a P (conj Hnd Hall)) as [Hwf Hl]. split; [exact Hwf|]. lia.
    + unfold get. destruct (List.find _ _); [destruct (heap P !! _)|]; exact Hmax.
Qed.

Lemma clear_fold (Hd : forall o, isActive (destroyObj o) = false) (l : list nat) :
  forall h,
  let h' := fold_left (fun h r =>
              match h !! r with
              | Some o => if isActive o then <[r := destroyObj o]> h else h
              | None => h
              end) l h in
  length h' = length h /\
  (forall r, ~ In r l -> h' !! r = h !! r) /\
  (forall r, In r l -> (r < length h)%nat -> obj_inactive isActive h' r = true).
Proof.
  induction l as [|x l IH]; intros h; simpl.
  - split; [reflexivity|]. split; [reflexivity|]. intros r [].
  - set (h1 := match h !! x with
               | Some o => if isActive o then <[x := destroyObj o]> h else h
               | None => h
               end).
    assert (Hlen1 : length h1 = length h).
    { unfold h1. destruct (h !! x); [destruct (isActive _)|];
        rewrite ?length_insert; reflexivity. }
    assert (Hne1 : forall r, r <> x -> h1 !! r = h !! r).
    { intros r Hr. unfold h1. destruct (h !! x); [destruct (isActive _)|];
        try reflexivity. apply list_lookup_insert_ne. congruence. }
    destruct (IH h1) as (IHlen & IHout & IHin).
    split; [rewrite IHlen; exact Hlen1|]. split.
    + intros r Hr. rewrite IHout; [apply Hne1|]; intros Hin; apply Hr;
        [left; congruence|right; exact Hin].
    + intros r Hr Hlt. destruct (in_dec Nat.eq_dec r l) as [Hin|Hnin].
      * apply IHin; [exact Hin|]. rewrite Hlen1. exact Hlt.
      * destruct Hr as [Hr|Hr]; [|contradiction]. subst r.
        unfold obj_inactive. rewrite (IHout x Hnin). unfold h1.
        destruct (h !! x) as [o|] eqn:Ho.
        -- destruct (isActive o) eqn:Ha.
           ++ rewrite list_lookup_insert_eq by (eapply lookup_lt_Some; exact Ho).
              rewrite Hd. reflexivity.
           ++ rewrite Ho, Ha. reflexivity.
        -- apply lookup_ge_None_1 in Ho. lia.
Qed.

(** [clear()] destroys every object of the pool array that exists and
    leaves all of them inactive; an object the pool does not hold (one
    created by [get] once the pool was full) is left as it was, and stays
    active if it was.  This holds for objects whose [destroy()] clears
    [isActive]. *)
Theorem clear_deactivates_pooled (Hd : forall o, isActive (destroyObj o) = false)
    (P : ObjectPool T) :
  pool (clear isActive destroyObj P) = [] /\
  (forall r, In r (pool P) -> (r < length (heap P))%nat ->
   obj_inactive isActive (heap (clear isActive destroyObj P)) r = true) /\
  (forall r, ~ In r (pool P) ->
   heap (clear isActive destroyObj P) !! r = heap P !! r).
Proof.
  destruct (clear_fold Hd (pool P) (heap P)) as (_ & Hout & Hin).
  unfold clear; simpl. split; [reflexivity|]. split; assumption.
Qed.
End ObjectPoolMoreProofs.

Lemma clear_deactivates_pooled_witness :
  (forall o : bool, (fun b => b) ((fun _ => false) o) = false) /\
  obj_inactive (fun b : bool => b)
    (heap (clear (fun b => b) (fun _ => false) (mkObjectPool [true; false; true] [0%nat; 1%nat] 5)))
    0%nat = true /\
  heap (clear (fun b : bool => b) (fun _ => false) (mkObjectPool [true; false; true] [0%nat; 1%nat] 5))
    !! 2%nat = Some true.
Proof.
  assert (Hd : forall o : bool, (fun b => b) ((fun _ => false) o) = false) by reflexivity.
  destruct (clear_deactivates_pooled (fun b : bool => b) (fun _ => false) Hd
              (mkObjectPool [true; false; true] [0%nat; 1%nat] 5)) as (_ & Hin & Hout).
  split; [exact Hd|]. split.
  - apply Hin; simpl; [left; reflexivity|lia].
  - rewrite Hout; [reflexivity|]. simpl. intros [H|[H|[]]]; discriminate.
Defined.

(* ------------------------------------------------------------------ *)
(** ** Projectiles and their pool *)

Lemma guard_type_config (v : JsValue) :
  exists t pts, type_and_points (guard_type v) = Some (t, pts) /\ t = guard_type v.
Proof.
  unfold guard_type.
  destruct (negb (truthy v) || negb (lookup_truthy (typeConfigs_get (property_key v))))
    eqn:E.
  - eexists _, _. split; reflexivity.
  - apply orb_false_iff in E. destruct E as [_ E].
    unfold type_and_points.
    destruct (typeConfigs_get (property_key v)); simpl in E; try discriminate;
      eexists _, _; split; reflexivity.
Qed.

(** [PoopPool.getPoop(x, y, type)] with the pool's scene set never
    throws, and hands out an active projectile at [(x, y)] with the
    guarded type, the points of that type's entry, a downward velocity set
    from the fall speed just drawn and the pool's [screenBottom]; every
    other object is left as it was.  This holds for a pool whose
    references all point to existing objects, which the constructor and
    [get] ensure ([pool_refs_wf]). *)
Theorem getPoop_result (screenBottom x y : Q) (v : JsValue)
    (randomCreate randomReset : Q) (P : ObjectPool PoopEntity) :
  Forall (fun r => (r < length (heap P))%nat) (pool P) ->
  exists r P' o,
    getPoop true screenBottom x y v randomCreate randomReset P = Some (r, P') /\
    heap P' !! r = Some o /\
    pActive o = true /\ pType o = guard_type v /\
    type_and_points (guard_type v) = Some (pType o, pPoints o) /\
    pX o = x /\ pY o = y /\ pVelY o = (- fallSpeedOf randomReset)%Q /\
    pScreenBottom o = screenBottom /\
    (forall r', r' <> r -> heap P' !! r' = heap P !! r').
Proof.
  intros Hall.
  destruct (guard_type_config v) as (t & pts & Htp & Ht).
  unfold getPoop, get.
  destruct (List.find (obj_inactive pActive (heap P)) (pool P)) as [r|] eqn:F.
  - apply find_some in F. destruct F as [Hin _].
    rewrite Forall_forall in Hall.
    specialize (Hall r (proj2 (list_elem_of_In _ _) Hin)).
    destruct (heap P !! r) as [o|] eqn:Ho;
      [|apply lookup_ge_None_1 in Ho; lia].
    simpl. rewrite list_lookup_insert_eq by (eapply lookup_lt_Some; exact Ho).
    unfold resetPoop. simpl. rewrite Htp.
    eexists r, _, _. split; [reflexivity|].
    split; [simpl; rewrite list_lookup_insert_eq; [reflexivity|];
            rewrite length_insert; eapply lookup_lt_Some; exact Ho|].
    simpl. subst t. repeat split; try reflexivity.
    intros r' Hr'. rewrite list_lookup_insert_ne by congruence.
    rewrite list_lookup_insert_ne by congruence. reflexivity.
  - simpl.
    assert (Hl : (heap P ++ [createPoop screenBottom randomCreate]) !! length (heap P)
                 = Some (createPoop screenBottom randomCreate)).
    { rewrite lookup_app_r by lia. rewrite Nat.sub_diag. reflexivity. }
    rewrite Hl. unfold resetPoop. simpl. rewrite Htp.
    eexists _, _, _. split; [reflexivity|].
    split; [simpl; rewrite list_lookup_insert_eq; [reflexivity|];
            rewrite length_app; simpl; lia|].
    simpl. subst t. repeat split; try reflexivity.
    intros r' Hr'. rewrite list_lookup_insert_ne by congruence.
    apply lookup_app_singleton_ne. exact Hr'.
Qed.

Lemma getPoop_result_witness :
  Forall (fun r => (r < length (heap (mkObjectPool [createPoop (-300) (1#2)] [0%nat] 100)))%nat)
    (pool (mkObjectPool [createPoop (-300) (1#2)] [0%nat] 100)) /\
  exists r P' o,
    getPoop true (-300) 40 250 (JsStr "fancy") (1#2) (1#4)
      (mkObjectPool [createPoop (-300) (1#2)] [0%nat] 100) = Some (r, P') /\
    heap P' !! r = Some o /\ pActive o = true.
Proof.
  assert (H : Forall (fun r => (r < length (heap (mkObjectPool [createPoop (-300) (1#2)] [0%nat] 100)))%nat)
                (pool (mkObjectPool [createPoop (-300) (1#2)] [0%nat] 100))).
  { simpl. constructor; [lia|constructor]. }
  split; [exact H|].
  destruct (getPoop_result (-300) 40 250 (JsStr "fancy") (1#2) (1#4) _ H)
    as (r & P' & o & H1 & H2 & H3 & _).
  exists r, P', o. split; [exact H1|]. split; [exact H2|exact H3].
Defined.

Open Scope Q_scope.

Lemma updatePoop_fold (dts : list Q) (o : PoopEntity) :
  pActive o = true ->
  let o' := fold_left (fun o dt => updatePoop dt o) dts o in
  pActive o' = true /\ pVelY o' = pVelY o /\ pScreenBottom o' = pScreenBottom o /\
  pX o' = pX o /\
  pY o' == pY o + pVelY o * (fold_right Qplus 0 dts / 1000).
Proof.
  revert o. induction dts as [|dt dts IH]; intros o Ha; cbn [fold_left fold_right].
  - repeat split; try reflexivity; try assumption. field.
  - assert (E : updatePoop dt o = mkPoopEntity true (pType o) (pPoints o) (pX o)
                   (pY o + pVelY o * (dt / 1000)) (pVelY o) (pScreenBottom o))
      by (unfold updatePoop; rewrite Ha; reflexivity).
    rewrite E.
    destruct (IH (mkPoopEntity true (pType o) (pPoints o) (pX o)
                   (pY o + pVelY o * (dt / 1000)) (pVelY o) (pScreenBottom o)) eq_refl)
      as (H1 & H2 & H3 & H4 & H5).
    simpl in H2, H3, H4, H5.
    repeat split; try assumption. rewrite H5. field.
Qed.

(** A projectile reset into play by [poop.reset(scene, x, y, type)] with
    [Math.random()] in [[0, 1]] falls at a constant speed between 175 and
    225 units per second: after updates of non-negative durations summing
    to [T] milliseconds its height is [y] minus that speed times [T/1000],
    and it is off screen ([isOffScreen()]) as soon as [y - screenBottom] is
    less than [175 * T/1000]. *)
Theorem poop_fall (sb x y random : Q) (v : JsValue) (o o1 : PoopEntity) (dts : list Q) :
  0 <= random <= 1 ->
  Forall (fun dt => 0 <= dt) dts ->
  resetPoop true x y v sb random o = Some o1 ->
  let o' := fold_left (fun o dt => updatePoop dt o) dts o1 in
  let T := fold_right Qplus 0 dts in
  pActive o' = true /\ pX o' = x /\
  pY o' == y - fallSpeedOf random * (T / 1000) /\
  175 <= fallSpeedOf random <= 225 /\
  y - 225 * (T / 1000) <= pY o' <= y - 175 * (T / 1000) /\
  (y - sb < 175 * (T / 1000) -> isOffScreen o' = true).
Proof.
  intros [Hr0 Hr1] Hdts Hres o' T.
  unfold resetPoop in Hres. simpl in Hres.
  destruct (type_and_points (guard_type v)) as [[t pts]|]; [|discriminate].
  injection Hres as <-.
  destruct (updatePoop_fold dts (mkPoopEntity true t pts x y (- fallSpeedOf random) sb)
              eq_refl) as (H1 & H2 & H3 & H4 & H5).
  fold o' in H1, H2, H3, H4, H5. simpl in H2, H3, H4, H5. fold T in H5.
  assert (HT : 0 <= T).
  { unfold T. clear -Hdts. induction Hdts as [|dt dts Hdt _ IH]; simpl.
    - apply Qle_refl.
    - lra. }
  assert (HT' : 0 <= T / 1000) by (apply Qle_shift_div_l; [reflexivity|lra]).
  assert (HF : 175 <= fallSpeedOf random <= 225) by (unfold fallSpeedOf; lra).
  assert (HY : pY o' == y - fallSpeedOf random * (T / 1000)) by (rewrite H5; ring).
  assert (Hlo : 175 * (T / 1000) <= fallSpeedOf random * (T / 1000))
    by (apply Qmult_le_compat_r; [lra|exact HT']).
  assert (Hhi : fallSpeedOf random * (T / 1000) <= 225 * (T / 1000))
    by (apply Qmult_le_compat_r; [lra|exact HT']).
  repeat split; try assumption; try lra.
  intros Hoff. unfold isOffScreen. apply Qltb_true. rewrite H3. lra.
Qed.

Lemma poop_fall_witness :
  exists o1, resetPoop true 10 250 (JsStr "regular") (-300) (1#2)
               (createPoop (-300) 0) = Some o1 /\
  isOffScreen (fold_left (fun o dt => updatePoop dt o) (repeat (500:Q) 8) o1) = true.
Proof.
  eexists. split; [reflexivity|].
  assert (Hr : 0 <= 1#2 <= 1) by (split; vm_compute; discriminate).
  assert (Hd : Forall (fun dt => 0 <= dt) (repeat (500:Q) 8))
    by (repeat constructor; vm_compute; discriminate).
  pose proof (poop_fall (-300) 10 250 (1#2) (JsStr "regular") (createPoop (-300) 0) _
                (repeat (500:Q) 8) Hr Hd eq_refl) as HP.
  cbv zeta in HP. destruct HP as (_ & _ & _ & _ & _ & Hoff).
  apply Hoff. vm_compute. reflexivity.
Defined.

Close Scope Q_scope.

Open Scope Q_scope.

Lemma Qfloor_step (g d : Q) :
  0 <= d <= 15000 ->
  (Qfloor (g / 15000) <= Qfloor ((g + d) / 15000) <= Qfloor (g / 15000) + 1)%Z.
Proof.
  intros [Hd0 Hd1].
  assert (E : (g + d) / 15000 == g / 15000 + d / 15000) by field.
  assert (Hq0 : 0 <= d / 15000) by (apply Qle_shift_div_l; [reflexivity|lra]).
  assert (Hq1 : d / 15000 <= 1) by (apply Qle_shift_div_r; [reflexivity|lra]).
  split.
  - apply Qfloor_resp_le. rewrite E. lra.
  - set (x := g / 15000) in *. set (y := (g + d) / 15000) in *.
    assert (Hb : inject_Z (Qfloor y) < inject_Z (Qfloor x + 1 + 1)).
    { pose proof (Qfloor_le y) as H1. pose proof (Qlt_floor x) as H2.
      rewrite !inject_Z_plus. rewrite inject_Z_plus in H2.
      change (inject_Z 1) with 1 in *. lra. }
    rewrite <- Zlt_Qlt in Hb. lia.
Qed.

Lemma resetBaby_inv (r : Q) (b : Baby) :
  babyActive b = true -> 0 <= r -> baby_inv (resetBaby r b).
Proof.
  intros Ha Hr. unfold baby_inv, resetBaby, resetShootTimer. simpl.
  split; [exact Ha|]. split; [apply Qle_refl|].
  split; [reflexivity|]. split.
  - unfold Qmax, GenericMinMax.gmax. simpl. reflexivity.
  - apply Qmult_lt_0_compat; [reflexivity|lra].
Qed.

Ltac baby_cbn :=
  cbn [babyActive shootTimer shootInterval babyGameTime lastShootRateUpdate fst snd]
    in *.

Lemma updateBaby_inv (dt r : Q) (b : Baby) :
  baby_inv b -> 0 <= dt <= 15000 -> 0 <= r ->
  baby_inv (fst (updateBaby dt r b)) /\
  babyGameTime (fst (updateBaby dt r b)) = babyGameTime b + dt.
Proof.
  intros (Ha & Hg & Hl & Hi & Ht) Hdt Hr.
  destruct (Qfloor_step (babyGameTime b) dt Hdt) as [Hf1 Hf2].
  rewrite <- Hl in Hf1, Hf2.
  assert (Hp : 0 <= (9#10) ^ lastShootRateUpdate b)
    by (apply Qpower_0_le; discriminate).
  assert (Hi500 : 500 <= shootInterval b).
  { rewrite Hi. destruct (Qmax_cases 500 (2000 * (9#10) ^ lastShootRateUpdate b))
      as [[-> ?]|[-> ?]]; lra. }
  unfold updateBaby. rewrite Ha. cbn [negb].
  unfold updateShootingRate. baby_cbn.
  set (ci := Qfloor ((babyGameTime b + dt) / 15000)) in *.
  set (p := (9#10) ^ lastShootRateUpdate b) in *.
  destruct (lastShootRateUpdate b <? ci)%Z eqn:Elt.
  - apply Z.ltb_lt in Elt.
    assert (Eci : ci = (lastShootRateUpdate b + 1)%Z) by lia.
    assert (Hpow : (9#10) ^ ci == p * (9#10)).
    { rewrite Eci, Qpower_plus by discriminate. reflexivity. }
    assert (Hnew : Qmax 500 (shootInterval b * (9#10)) == Qmax 500 (2000 * (9#10) ^ ci)).
    { rewrite Hpow.
      destruct (Qmax_cases 500 (2000 * p)) as [[E1 ?]|[E1 ?]]; rewrite E1 in Hi;
      destruct (Qmax_cases 500 (shootInterval b * (9#10))) as [[-> ?]|[-> ?]];
      destruct (Qmax_cases 500 (2000 * (p * (9#10)))) as [[-> ?]|[-> ?]];
      rewrite ?Hi in *; lra. }
    assert (H500 : 500 <= Qmax 500 (shootInterval b * (9#10))).
    { destruct (Qmax_cases 500 (shootInterval b * (9#10))) as [[-> ?]|[-> ?]]; lra. }
    unfold updateShooting. baby_cbn.
    destruct (Qle_bool (shootTimer b - dt) 0) eqn:Eb; baby_cbn.
    + unfold baby_inv, resetShootTimer. baby_cbn.
      repeat split; try assumption; try lra.
      apply Qmult_lt_0_compat; lra.
    + apply Qle_bool_false in Eb.
      unfold baby_inv. baby_cbn. repeat split; try assumption; try lra.
  - apply Z.ltb_ge in Elt.
    assert (Eci : lastShootRateUpdate b = ci) by lia.
    unfold updateShooting. baby_cbn.
    destruct (Qle_bool (shootTimer b - dt) 0) eqn:Eb; baby_cbn.
    + unfold baby_inv, resetShootTimer. baby_cbn.
      repeat split; try assumption; try lra.
      apply Qmult_lt_0_compat; lra.
    + apply Qle_bool_false in Eb.
      unfold baby_inv. baby_cbn. repeat split; try assumption; try lra.
Qed.

Lemma runBaby_inv (calls : list (Q * Q)) (b : Baby) :
  baby_inv b ->
  Forall (fun c => 0 <= fst c <= 15000 /\ 0 <= snd c < 1) calls ->
  baby_inv (fst (runBaby calls b)) /\
  babyGameTime (fst (runBaby calls b)) == babyGameTime b + fold_right Qplus 0 (map fst calls).
Proof.
  intros Hinv Hcalls. revert b Hinv.
  induction Hcalls as [|[dt r] calls [Hdt Hr] _ IH]; intros b Hinv.
  - cbn [runBaby fst map fold_right]. split; [exact Hinv|ring].
  - cbn [runBaby fst snd map fold_right] in *.
    destruct (updateBaby_inv dt r b Hinv Hdt (proj1 Hr)) as [Hinv' Hg'].
    destruct (updateBaby dt r b) as [b1 shot]. cbn [fst] in Hinv', Hg'.
    destruct (IH b1 Hinv') as [Hi2 Hg2].
    destruct (runBaby calls b1) as [b2 n]. cbn [fst] in Hi2, Hg2 |- *.
    split; [exact Hi2|]. rewrite Hg2, Hg'. ring.
Qed.

(** After [reset()] with [Math.random()] in [[0, 1)], and any sequence of
    [update(deltaTime)] calls of at most 15 seconds each (with their own
    draws in [[0, 1)]), the shooter's clock is the sum of the durations,
    [lastShootRateUpdate] is the number of whole 15-second periods on it,
    the interval has been cut by 10% once per period down to the 500 ms
    floor, [max(500, 2000 * 0.9 ^ periods)], and the shot timer is still
    positive. *)
Theorem baby_schedule (r0 : Q) (b0 : Baby) (calls : list (Q * Q)) :
  babyActive b0 = true -> 0 <= r0 < 1 ->
  Forall (fun c => 0 <= fst c <= 15000 /\ 0 <= snd c < 1) calls ->
  let b := fst (runBaby calls (resetBaby r0 b0)) in
  babyActive b = true /\
  babyGameTime b == fold_right Qplus 0 (map fst calls) /\
  lastShootRateUpdate b = Qfloor (babyGameTime b / 15000) /\
  shootInterval b == Qmax 500 (2000 * (9#10) ^ lastShootRateUpdate b) /\
  0 < shootTimer b.
Proof.
  intros Ha [Hr0 _] Hcalls b. unfold b. clear b.
  destruct (runBaby_inv calls (resetBaby r0 b0) (resetBaby_inv r0 b0 Ha Hr0) Hcalls)
    as [(H1 & _ & H3 & H4 & H5) Hg].
  repeat split; try assumption.
  rewrite Hg. cbn [babyGameTime resetBaby resetShootTimer]. ring.
Qed.

Lemma baby_schedule_witness :
  Forall (fun c => 0 <= fst c <= 15000 /\ 0 <= snd c < 1)
    (repeat ((10000:Q), (1#4)) 5) /\
  lastShootRateUpdate (fst (runBaby (repeat ((10000:Q), (1#4)) 5)
                             (resetBaby (1#2) (mkBaby true 0 2000 0 0)))) = 3%Z.
Proof.
  assert (Hc : Forall (fun c => 0 <= fst c <= 15000 /\ 0 <= snd c < 1)
                 (repeat ((10000:Q), (1#4)) 5)).
  { repeat constructor; vm_compute; discriminate. }
  split; [exact Hc|].
  assert (Hr : 0 <= 1#2 < 1) by (split; vm_compute; [discriminate|reflexivity]).
  pose proof (baby_schedule (1#2) (mkBaby true 0 2000 0 0) _ eq_refl Hr Hc) as HB.
  cbv zeta in HB. destruct HB as (_ & _ & H3 & _ & _).
  rewrite H3. vm_compute. reflexivity.
Defined.

(* ------------------------------------------------------------------ *)
(** ** The catcher *)

Ltac diaper_cbn :=
  cbn [diaperActive diaperX targetX boundLeft boundRight speed with_diaperX with_targetX]
    in *.

Lemma checkBounds_in (d : Diaper) :
  boundLeft d <= boundRight d ->
  let d' := checkBounds d in
  boundLeft d <= diaperX d' <= boundRight d /\
  boundLeft d <= targetX d' <= boundRight d /\
  diaperActive d' = diaperActive d /\ boundLeft d' = boundLeft d /\
  boundRight d' = boundRight d /\ speed d' = speed d.
Proof.
  intros Hlr d'. unfold d', checkBounds.
  destruct (Qltb (diaperX d) (boundLeft d)) eqn:E1;
    [|destruct (Qltb (boundRight d) (diaperX d)) eqn:E2];
  destruct (Qltb (targetX d) (boundLeft d)) eqn:E3;
    try destruct (Qltb (boundRight d) (targetX d)) eqn:E4;
  cbv iota beta;
  match goal with |- context [if ?c then _ else _] => destruct c end;
  diaper_cbn; qltb_hyps; repeat split; try reflexivity; lra.
Qed.

Lemma checkBounds_id (d : Diaper) :
  boundLeft d <= diaperX d <= boundRight d ->
  boundLeft d <= targetX d <= boundRight d ->
  checkBounds d = d.
Proof.
  intros [Hx1 Hx2] [Ht1 Ht2]. unfold checkBounds.
  assert (E1 : Qltb (diaperX d) (boundLeft d) = false) by (apply Qltb_false; lra).
  assert (E2 : Qltb (boundRight d) (diaperX d) = false) by (apply Qltb_false; lra).
  assert (E3 : Qltb (targetX d) (boundLeft d) = false) by (apply Qltb_false; lra).
  assert (E4 : Qltb (boundRight d) (targetX d) = false) by (apply Qltb_false; lra).
  rewrite E1, E2, E3, E4. destruct d; reflexivity.
Qed.

Lemma applyDiaperOp_in (d : Diaper) (op : DiaperOp) :
  boundLeft d <= boundRight d ->
  boundLeft d <= diaperX d <= boundRight d ->
  boundLeft d <= targetX d <= boundRight d ->
  let d' := applyDiaperOp d op in
  boundLeft d <= diaperX d' <= boundRight d /\
  boundLeft d <= targetX d' <= boundRight d /\
  diaperActive d' = diaperActive d /\ boundLeft d' = boundLeft d /\
  boundRight d' = boundRight d /\ speed d' = speed d.
Proof.
  intros Hlr Hx Ht d'. unfold d'. clear d'.
  destruct op as [| |x|dt]; cbn [applyDiaperOp].
  - unfold moveLeft. diaper_cbn.
    destruct (Qmax_cases (boundLeft d) (targetX d - 50)) as [[-> ?]|[-> ?]];
      repeat split; try reflexivity; lra.
  - unfold moveRight. diaper_cbn.
    destruct (Qmin_cases (boundRight d) (targetX d + 50)) as [[-> ?]|[-> ?]];
      repeat split; try reflexivity; lra.
  - unfold setTargetX. diaper_cbn.
    destruct (Qmin_cases (boundRight d) x) as [[-> ?]|[-> ?]];
    [destruct (Qmax_cases (boundLeft d) (boundRight d)) as [[-> ?]|[-> ?]]
    |destruct (Qmax_cases (boundLeft d) x) as [[-> ?]|[-> ?]]];
      repeat split; try reflexivity; lra.
  - unfold updateDiaper. destruct (diaperActive d) eqn:Ea; cbn [negb].
    + assert (Hm : boundLeft (updateMovement dt d) = boundLeft d /\
                   boundRight (updateMovement dt d) = boundRight d /\
                   diaperActive (updateMovement dt d) = diaperActive d /\
                   speed (updateMovement dt d) = speed d).
      { unfold updateMovement.
        destruct (Qltb (Qabs (targetX d - diaperX d)) (1#2)).
        - diaper_cbn. repeat split.
        - destruct (checkBounds_in
            (with_diaperX d (diaperX d +
               Qsign ((targetX d - diaperX d) * 8 * (dt / 1000)) *
               Qmin (Qabs ((targetX d - diaperX d) * 8 * (dt / 1000)))
                    (speed d * (dt / 1000))))
            Hlr) as (_ & _ & H3 & H4 & H5 & H6).
          diaper_cbn. repeat split; assumption. }
      destruct Hm as (Hm1 & Hm2 & Hm3 & Hm4).
      assert (Hlr' : boundLeft (updateMovement dt d) <= boundRight (updateMovement dt d))
        by (rewrite Hm1, Hm2; exact Hlr).
      destruct (checkBounds_in (updateMovement dt d) Hlr') as (H1 & H2 & H3 & H4 & H5 & H6).
      rewrite Hm1, Hm2 in *. rewrite H3, H4, H5, H6, Hm3, Hm4, Ea.
      repeat split; try reflexivity; try apply H1; try apply H2.
    + repeat split; try reflexivity; try apply Hx; try apply Ht; exact Ea.
Qed.

(** Started inside its bounds ([left <= right]), the catcher stays inside
    them whatever sequence of [moveLeft()], [moveRight()],
    [setTargetX(x)] and [update(deltaTime)] calls it receives: both its
    position and its target remain in [[left, right]], and its bounds,
    speed and activity are unchanged. *)
Theorem diaper_stays_in_bounds (d : Diaper) (ops : list DiaperOp) :
  boundLeft d <= boundRight d ->
  boundLeft d <= diaperX d <= boundRight d ->
  boundLeft d <= targetX d <= boundRight d ->
  let d' := runDiaper d ops in
  boundLeft d <= diaperX d' <= boundRight d /\
  boundLeft d <= targetX d' <= boundRight d /\
  diaperActive d' = diaperActive d /\ boundLeft d' = boundLeft d /\
  boundRight d' = boundRight d /\ speed d' = speed d.
Proof.
  intros Hlr Hx Ht d'. unfold d', runDiaper. clear d'.
  revert d Hlr Hx Ht. induction ops as [|op ops IH]; intros d Hlr Hx Ht.
  - cbn [fold_left]. repeat split; try reflexivity; try apply Hx; try apply Ht.
  - cbn [fold_left].
    destruct (applyDiaperOp_in d op Hlr Hx Ht) as (H1 & H2 & H3 & H4 & H5 & H6).
    set (d1 := applyDiaperOp d op) in *.
    assert (Hlr1 : boundLeft d1 <= boundRight d1) by (rewrite H4, H5; exact Hlr).
    assert (Hx1 : boundLeft d1 <= diaperX d1 <= boundRight d1) by (rewrite H4, H5; exact H1).
    assert (Ht1 : boundLeft d1 <= targetX d1 <= boundRight d1) by (rewrite H4, H5; exact H2).
    destruct (IH d1 Hlr1 Hx1 Ht1) as (G1 & G2 & G3 & G4 & G5 & G6).
    rewrite H4, H5 in G1, G2. rewrite G3, G4, G5, G6.
    split; [exact G1|]. split; [exact G2|]. repeat split; assumption.
Qed.

Lemma diaper_stays_in_bounds_witness :
  (-350 <= 350 /\ -350 <= 0 <= 350 /\ -350 <= 0 <= 350) /\
  diaperX (runDiaper (mkDiaper true 0 0 (-350) 350 300)
             (repeat DMoveRight 10 ++ repeat (DUpdate 16) 200)) <= 350.
Proof.
  assert (H1 : -350 <= 350) by (vm_compute; discriminate).
  assert (H2 : -350 <= 0 <= 350) by (split; vm_compute; discriminate).
  split; [split; [exact H1|split; exact H2]|].
  pose proof (diaper_stays_in_bounds (mkDiaper true 0 0 (-350) 350 300)
                (repeat DMoveRight 10 ++ repeat (DUpdate 16) 200) H1 H2 H2) as HD.
  cbv zeta in HD. destruct HD as ([_ Hr] & _).
  exact Hr.
Defined.

Lemma clampedMove_bounds (dX s M : Q) :
  0 <= s <= 1#8 -> 0 <= M ->
  (0 <= dX -> 0 <= Qsign (dX * 8 * s) * Qmin (Qabs (dX * 8 * s)) M <= dX) /\
  (dX <= 0 -> dX <= Qsign (dX * 8 * s) * Qmin (Qabs (dX * 8 * s)) M <= 0) /\
  - M <= Qsign (dX * 8 * s) * Qmin (Qabs (dX * 8 * s)) M <= M.
Proof.
  intros [Hs0 Hs1] HM.
  assert (Hp : 0 <= dX -> 0 <= dX * 8 * s <= dX) by (intros; split; nra).
  assert (Hn : dX <= 0 -> dX <= dX * 8 * s <= 0) by (intros; split; nra).
  set (m := dX * 8 * s) in *.
  unfold Qsign.
  destruct (Qltb 0 m) eqn:E1; [|destruct (Qltb m 0) eqn:E2]; qltb_hyps.
  - assert (Ha : Qabs m == m) by (apply Qabs_pos; lra).
    destruct (Qmin_cases (Qabs m) M) as [[-> ?]|[-> ?]];
      repeat split; intros; try lra.
  - assert (Ha : Qabs m == - m) by (apply Qabs_neg; lra).
    destruct (Qmin_cases (Qabs m) M) as [[-> ?]|[-> ?]];
      repeat split; intros; try lra.
  - assert (Ha : Qabs m == 0) by (rewrite Qabs_pos by lra; lra).
    destruct (Qmin_cases (Qabs m) M) as [[-> ?]|[-> ?]];
      repeat split; intros; try lra.
Qed.

(** One [update(deltaTime)] of an active catcher inside its bounds, with a
    non-negative speed and a frame of at most 125 ms, never carries it past
    its target: within half a unit it snaps onto the target; otherwise it
    moves towards the target by at most [speed * deltaTime / 1000] and
    stops at the target or before it.  The target itself does not move. *)
Theorem diaper_update_no_overshoot (dt : Q) (d : Diaper) :
  diaperActive d = true ->
  boundLeft d <= diaperX d <= boundRight d ->
  boundLeft d <= targetX d <= boundRight d ->
  0 <= speed d -> 0 <= dt <= 125 ->
  let d' := updateDiaper dt d in
  targetX d' = targetX d /\
  (Qabs (targetX d - diaperX d) < 1#2 -> diaperX d' = targetX d) /\
  (1#2 <= Qabs (targetX d - diaperX d) ->
     (diaperX d <= targetX d -> diaperX d <= diaperX d' <= targetX d) /\
     (targetX d <= diaperX d -> targetX d <= diaperX d' <= diaperX d) /\
     - (speed d * (dt / 1000)) <= diaperX d' - diaperX d <= speed d * (dt / 1000)).
Proof.
  intros Ha Hx Ht Hs Hdt d'. unfold d', updateDiaper. rewrite Ha. cbn [negb].
  unfold updateMovement. cbv zeta.
  assert (Hs8 : 0 <= dt / 1000 <= 1#8).
  { split; [apply Qle_shift_div_l|apply Qle_shift_div_r]; try reflexivity; lra. }
  assert (HM : 0 <= speed d * (dt / 1000)) by nra.
  destruct (Qltb (Qabs (targetX d - diaperX d)) (1#2)) eqn:Es.
  - rewrite checkBounds_id by (diaper_cbn; lra). diaper_cbn.
    split; [reflexivity|]. split; [intros; reflexivity|].
    intros H. qltb_hyps. lra.
  - destruct (clampedMove_bounds (targetX d - diaperX d) (dt / 1000)
                (speed d * (dt / 1000)) Hs8 HM) as (C1 & C2 & C3).
    set (c := Qsign ((targetX d - diaperX d) * 8 * (dt / 1000)) *
              Qmin (Qabs ((targetX d - diaperX d) * 8 * (dt / 1000)))
                (speed d * (dt / 1000))) in *.
    assert (Hin : boundLeft d <= diaperX d + c <= boundRight d).
    { destruct (Qlt_le_dec (diaperX d) (targetX d)) as [Hlt|Hle].
      - assert (0 <= targetX d - diaperX d) by lra. specialize (C1 H). lra.
      - assert (targetX d - diaperX d <= 0) by lra. specialize (C2 H). lra. }
    rewrite (checkBounds_id (with_diaperX d (diaperX d + c))) by (diaper_cbn; lra).
    rewrite checkBounds_id by (diaper_cbn; lra).
    diaper_cbn. qltb_hyps.
    split; [reflexivity|]. split; [intros; lra|].
    intros _. split; [|split].
    + intros H. assert (0 <= targetX d - diaperX d) by lra. specialize (C1 H0). lra.
    + intros H. assert (targetX d - diaperX d <= 0) by lra. specialize (C2 H0). lra.
    + lra.
Qed.

Lemma diaper_update_no_overshoot_witness :
  (-350 <= 0 <= 350 /\ -350 <= 200 <= 350 /\ 0 <= 300 /\ 0 <= 16 <= 125) /\
  diaperX (updateDiaper 16 (mkDiaper true 0 200 (-350) 350 300)) <= 200.
Proof.
  assert (H1 : -350 <= 0 <= 350) by (split; vm_compute; discriminate).
  assert (H2 : -350 <= 200 <= 350) by (split; vm_compute; discriminate).
  assert (H3 : 0 <= 300) by (vm_compute; discriminate).
  assert (H4 : 0 <= 16 <= 125) by (split; vm_compute; discriminate).
  split; [repeat split; first [apply H1|apply H2|apply H3|apply H4]|].
  pose proof (diaper_update_no_overshoot 16 (mkDiaper true 0 200 (-350) 350 300)
                eq_refl H1 H2 H3 H4) as HD.
  cbv zeta in HD. destruct HD as (_ & _ & HD).
  assert (Hh : 1#2 <= Qabs (200 - 0)) by (vm_compute; discriminate).
  destruct (HD Hh) as (Hle & _ & _).
  assert (H0 : 0 <= 200) by (vm_compute; discriminate).
  exact (proj2 (Hle H0)).
Defined.

Close Scope Q_scope.
